(** * app.js: gesture classifier, forced-shape override and particle field

    A shallow embedding of the gesture-to-shape core of [src/app.js]:

    - the JavaScript side ([onHandResults], [detectGesture],
      [isFingerExtended], [isThumbExtended], [forceShape],
      [updateParticleColors], the [gestureMap] of [animate]) runs in a
      small state-and-exception monad over the global [state] object and
      the browser's timer queue;
    - the GLSL vertex shader returned by [getParticleVertexShader] is a
      function on real vectors (module [Shader]);
    - [createParticleSystem], [onWindowResize] and [animate] are functions
      on the arrays and the camera they write, [createStarField] and the
      particle fragment shader functions on reals (modules [Sky] and
      [Fragment]); a draw of the particle system maps the vertex shader
      over the geometry's attributes ([drawParticles]).

    Numbers are idealised: JavaScript numbers are exact rationals ([Q]) and
    GLSL floats are real numbers ([R]); rounding is outside the model.  DOM
    effects (the status line, the menus) are not state the core reads back
    and are left out. *)

From Stdlib Require Import String List Bool Arith ZArith NArith PArith.
From Stdlib Require Import QArith Qminmax Qabs Reals Lia Psatz.
Import ListNotations.

Local Open Scope string_scope.

(** ** Numbers of the JavaScript side *)

(** [a < b] on JavaScript numbers. *)
Definition Qltb (a b : Q) : bool := negb (Qle_bool b a).

(** ** Data model *)

(** One tracked landmark: [{x, y, z}] in normalised camera space. *)
Record Landmark := mkLandmark { lx : Q; ly : Q; lz : Q }.

(** [THREE.Vector3], as far as the core uses it. *)
Record Vector3 := mkVector3 { vx : Q; vy : Q; vz : Q }.

(** The [GESTURES] table: the values are the strings kept in
    [state.currentGesture]. *)
Module GESTURES.
Definition NONE := "none".
Definition FIST := "fist".
Definition OPEN := "open".
Definition PEACE := "peace".
Definition METAL := "metal".
End GESTURES.

(** The global [state] object.  [forcedShapeTimer] is [null] or the handle
    [setTimeout] returned, a positive integer, hence truthy. *)
Record State := mkState {
  handPosition : Vector3;
  currentGesture : string;
  customText : string;
  isForcedShape : bool;
  forcedShapeTimer : option positive;
  time : Q;
  particleCount : nat
}.

(** [state] as the script initialises it, for a window [innerWidth] wide. *)
Definition initialState (innerWidth : nat) : State :=
  {| handPosition := mkVector3 0 0 0;
     currentGesture := "none";
     customText := "I LOVE U";
     isForcedShape := false;
     forcedShapeTimer := None;
     time := 0;
     particleCount := if Nat.ltb innerWidth 768 then 2000 else 4000 |}.

(** The browser's timer queue.  The program passes one function only to
    [setTimeout], the arrow function of [forceShape]. *)
Inductive callback := revertForcedShape.

Record Timer := mkTimer { handle : positive; due : N; action : callback }.

(** What a handler runs against: the [state] object, the clock in
    milliseconds, the pending timers in the order they were set, and the next
    handle [setTimeout] gives out. *)
Record World := mkWorld {
  state : State;
  clock : N;
  timers : list Timer;
  nextHandle : positive
}.

Definition initialWorld (innerWidth : nat) : World :=
  {| state := initialState innerWidth; clock := 0%N; timers := [];
     nextHandle := 1%positive |}.

(** ** A monad for handlers: global state and thrown exceptions

    A JavaScript [throw] does not undo the assignments made before it, so a
    computation returns the world it reached together with its completion. *)

Inductive exn := TypeError.

Inductive completion (A : Type) :=
| Normal (a : A)
| Throw (e : exn).
Arguments Normal {A} a.
Arguments Throw {A} e.

Definition JS (A : Type) : Type := World -> completion A * World.

Definition ret {A} (a : A) : JS A := fun w => (Normal a, w).

Definition throw {A} (e : exn) : JS A := fun w => (Throw e, w).

Definition bind {A B} (c : JS A) (k : A -> JS B) : JS B :=
  fun w =>
    match c w with
    | (Normal a, w') => k a w'
    | (Throw e, w') => (Throw e, w')
    end.

Declare Scope js_scope.
Delimit Scope js_scope with js.
Notation "x <- c ;; k" := (bind c (fun x => k))
  (at level 61, c at next level, right associativity) : js_scope.
Notation "c ;; k" := (bind c (fun _ => k))
  (at level 61, right associativity) : js_scope.
Local Open Scope js_scope.

(** Reading and assigning the fields of [state]. *)
Definition getState : JS State := fun w => (Normal (state w), w).

Definition modifyState (f : State -> State) : JS unit :=
  fun w => (Normal tt,
            {| state := f (state w); clock := clock w; timers := timers w;
               nextHandle := nextHandle w |}).

Definition set_handPosition_x (v : Q) (s : State) : State :=
  {| handPosition := mkVector3 v (vy (handPosition s)) (vz (handPosition s));
     currentGesture := currentGesture s; customText := customText s;
     isForcedShape := isForcedShape s; forcedShapeTimer := forcedShapeTimer s;
     time := time s; particleCount := particleCount s |}.

Definition set_handPosition_y (v : Q) (s : State) : State :=
  {| handPosition := mkVector3 (vx (handPosition s)) v (vz (handPosition s));
     currentGesture := currentGesture s; customText := customText s;
     isForcedShape := isForcedShape s; forcedShapeTimer := forcedShapeTimer s;
     time := time s; particleCount := particleCount s |}.

Definition set_handPosition_z (v : Q) (s : State) : State :=
  {| handPosition := mkVector3 (vx (handPosition s)) (vy (handPosition s)) v;
     currentGesture := currentGesture s; customText := customText s;
     isForcedShape := isForcedShape s; forcedShapeTimer := forcedShapeTimer s;
     time := time s; particleCount := particleCount s |}.

Definition set_currentGesture (g : string) (s : State) : State :=
  {| handPosition := handPosition s;
     currentGesture := g; customText := customText s;
     isForcedShape := isForcedShape s; forcedShapeTimer := forcedShapeTimer s;
     time := time s; particleCount := particleCount s |}.

Definition set_isForcedShape (b : bool) (s : State) : State :=
  {| handPosition := handPosition s;
     currentGesture := currentGesture s; customText := customText s;
     isForcedShape := b; forcedShapeTimer := forcedShapeTimer s;
     time := time s; particleCount := particleCount s |}.

Definition set_forcedShapeTimer (t : option positive) (s : State) : State :=
  {| handPosition := handPosition s;
     currentGesture := currentGesture s; customText := customText s;
     isForcedShape := isForcedShape s; forcedShapeTimer := t;
     time := time s; particleCount := particleCount s |}.

(** [o.f] for an [o] that an array lookup produced: reading a property of
    [undefined] throws a [TypeError]. *)
Definition member {A} (o : option Landmark) (f : Landmark -> A) : JS A :=
  match o with
  | Some l => ret (f l)
  | None => throw TypeError
  end.

(** ** The gesture classifier *)

(** [isFingerExtended(landmarks, tipIdx, baseIdx)]. *)
Definition isFingerExtended (landmarks : list Landmark) (tipIdx baseIdx : nat)
  : JS bool :=
  let tip := nth_error landmarks tipIdx in
  let base := nth_error landmarks baseIdx in
  tip_y <- member tip ly ;;
  base_y <- member base ly ;;
  ret (Qltb tip_y (base_y - 0.05)).

(** [isThumbExtended(landmarks)]. *)
Definition isThumbExtended (landmarks : list Landmark) : JS bool :=
  let tip := nth_error landmarks 4 in
  let base := nth_error landmarks 2 in
  tip_x <- member tip lx ;;
  base_x <- member base lx ;;
  ret (Qltb 0.05 (Qabs (tip_x - base_x))).

(** The [fingers] object of [detectGesture]. *)
Record Fingers := mkFingers {
  thumb : bool; index : bool; middle : bool; ring : bool; pinky : bool
}.

Definition fingerStates (landmarks : list Landmark) : JS Fingers :=
  t <- isThumbExtended landmarks ;;
  i <- isFingerExtended landmarks 8 5 ;;
  m <- isFingerExtended landmarks 12 9 ;;
  r <- isFingerExtended landmarks 16 13 ;;
  p <- isFingerExtended landmarks 20 17 ;;
  ret (mkFingers t i m r p).

(** [detectGesture(landmarks)]. *)
Definition detectGesture (landmarks : list Landmark) : JS string :=
  fingers <- fingerStates landmarks ;;
  if index fingers && negb (middle fingers) && negb (ring fingers)
     && pinky fingers
  then ret GESTURES.METAL
  else if index fingers && middle fingers && negb (ring fingers)
          && negb (pinky fingers)
  then ret GESTURES.PEACE
  else if negb (index fingers) && negb (middle fingers)
          && negb (ring fingers) && negb (pinky fingers)
  then ret GESTURES.FIST
  else if index fingers && middle fingers && ring fingers && pinky fingers
  then ret GESTURES.OPEN
  else s <- getState ;; ret (currentGesture s).

(** The tracker's [results]: [multiHandLandmarks] is absent ([None]) or an
    array with one landmark array for each hand. *)
Record Results := mkResults {
  multiHandLandmarks : option (list (list Landmark))
}.

(** [onHandResults(results)]. *)
Definition onHandResults (results : Results) : JS unit :=
  match multiHandLandmarks results with
  | Some (landmarks :: _) =>
      let wrist := nth_error landmarks 0 in
      let middleBase := nth_error landmarks 9 in
      wrist_x <- member wrist lx ;;
      middleBase_x <- member middleBase lx ;;
      modifyState
        (set_handPosition_x ((1 - (wrist_x + middleBase_x) / 2) * 2 - 1)) ;;
      wrist_y <- member wrist ly ;;
      middleBase_y <- member middleBase ly ;;
      modifyState
        (set_handPosition_y (- ((wrist_y + middleBase_y) / 2 * 2 - 1))) ;;
      wrist_z <- member wrist lz ;;
      middleBase_z <- member middleBase lz ;;
      let zAvg := ((wrist_z + middleBase_z) / 2)%Q in
      let zMapped := (- zAvg)%Q in
      let zMapped := Qmax (-1) (Qmin 1 zMapped) in
      modifyState (set_handPosition_z zMapped) ;;
      s <- getState ;;
      if negb (isForcedShape s)
      then g <- detectGesture landmarks ;; modifyState (set_currentGesture g)
      else ret tt
  | _ =>
      s <- getState ;;
      if negb (isForcedShape s)
      then modifyState (set_currentGesture GESTURES.NONE)
      else ret tt
  end.

(** ** The forced-shape override and the timer queue *)

(** [setTimeout(cb, delay)]: queue [cb] for [delay] ms from now and return a
    fresh handle. *)
Definition setTimeout (cb : callback) (delay : N) : JS positive :=
  fun w =>
    (Normal (nextHandle w),
     {| state := state w; clock := clock w;
        timers := timers w ++ [mkTimer (nextHandle w) (clock w + delay) cb];
        nextHandle := Pos.succ (nextHandle w) |}).

(** [clearTimeout(h)]: drop the pending timer with handle [h], if any. *)
Definition clearTimeout (h : positive) : JS unit :=
  fun w =>
    (Normal tt,
     {| state := state w; clock := clock w;
        timers := filter (fun t => negb (Pos.eqb (handle t) h)) (timers w);
        nextHandle := nextHandle w |}).

(** [forceShape(shape)]. *)
Definition forceShape (shape : string) : JS unit :=
  modifyState (set_currentGesture shape) ;;
  modifyState (set_isForcedShape true) ;;
  s <- getState ;;
  match forcedShapeTimer s with
  | Some h => clearTimeout h
  | None => ret tt
  end ;;
  h <- setTimeout revertForcedShape 5000 ;;
  modifyState (set_forcedShapeTimer (Some h)).

(** The body of a queued function. *)
Definition runCallback (cb : callback) : JS unit :=
  match cb with
  | revertForcedShape =>
      modifyState (set_isForcedShape false) ;;
      modifyState (set_currentGesture GESTURES.NONE)
  end.

(** [ms] milliseconds pass: the timers that have come due are taken off the
    queue and run, oldest first. *)
Definition elapse (ms : N) (w : World) : World :=
  let now := (clock w + ms)%N in
  let ready := filter (fun t => (due t <=? now)%N) (timers w) in
  let waiting := filter (fun t => negb (due t <=? now)%N) (timers w) in
  fold_left (fun w' t => snd (runCallback (action t) w')) ready
    {| state := state w; clock := now; timers := waiting;
       nextHandle := nextHandle w |}.

(** What the page reacts to.  An exception that escapes a handler ends that
    handler only; the world it left behind stays. *)
Inductive event :=
| HandFrame (results : Results)
| Force (shape : string)
| Elapse (ms : N).

Definition step (w : World) (e : event) : World :=
  match e with
  | HandFrame results => snd (onHandResults results w)
  | Force shape => snd (forceShape shape w)
  | Elapse ms => elapse ms w
  end.

Definition run (evs : list event) (w : World) : World := fold_left step evs w.

(** Time that passes during a run, and runs without a [Force]. *)
Fixpoint elapsed (evs : list event) : N :=
  match evs with
  | [] => 0
  | Elapse ms :: evs' => ms + elapsed evs'
  | _ :: evs' => elapsed evs'
  end%N.

Fixpoint unforced (evs : list event) : bool :=
  match evs with
  | [] => true
  | Force _ :: _ => false
  | _ :: evs' => unforced evs'
  end.

(** ** The colour pass *)

(** [gestureMap[state.currentGesture] || 0] of [animate]. *)
Definition gestureMap (g : string) : option Z :=
  if g =? "none" then Some 0%Z
  else if g =? "fist" then Some 1%Z
  else if g =? "open" then Some 2%Z
  else if g =? "peace" then Some 3%Z
  else if g =? "metal" then Some 4%Z
  else None.

Definition gestureUniform (g : string) : Z :=
  match gestureMap g with
  | Some v => if (v =? 0)%Z then 0%Z else v
  | None => 0%Z
  end.

(** [hueBase] and [hueRange] after the [switch] of [updateParticleColors]. *)
Definition hues (g : string) : Q * Q :=
  if g =? "fist" then (0.08, 0.1)
  else if g =? "open" then (0.4, 0.15)
  else if g =? "peace" then (0.6, 0.2)
  else if g =? "metal" then (0.95, 0.1)
  else (0.5, 0.1).

(** [a[i] = v] on a [Float32Array]: a write past the end is dropped. *)
Fixpoint array_set (a : list Q) (i : nat) (v : Q) : list Q :=
  match a, i with
  | [], _ => []
  | _ :: a', O => v :: a'
  | x :: a', S i' => x :: array_set a' i' v
  end.

Definition updateInterval (count : nat) : nat :=
  Nat.max 1 (Nat.div count 300).

Section ColourPass.

(** [THREE.Color.setHSL(h, s, l)] followed by reading [r], [g], [b]: the
    library is not part of the repository. *)
Variable setHSL : Q -> Q -> Q -> Q * Q * Q.

(** [random k] is what the [k]-th call of [Math.random()] of one pass
    returns. *)
Variable random : nat -> Q.

Variables (count interval : nat) (hueBase hueRange : Q).

(** The [for] loop, from index [i] on, [k] random numbers drawn so far.
    [None]: the fuel ran out before the loop ended. *)
Fixpoint colourLoop (fuel i k : nat) (colors : list Q) : option (list Q) :=
  if Nat.ltb i count then
    match fuel with
    | O => None
    | S fuel' =>
        let idx := (i * 3)%nat in
        let hue := (hueBase + (random k - 0.5) * hueRange)%Q in
        let '(r, g, b) := setHSL hue 1 0.5 in
        let colors := array_set colors idx r in
        let colors := array_set colors (idx + 1)%nat g in
        let colors := array_set colors (idx + 2)%nat b in
        colourLoop fuel' (i + interval)%nat (S k) colors
    end
  else Some colors.

End ColourPass.

(** [updateParticleColors()], on the colour array of the geometry. *)
Definition updateParticleColors (setHSL : Q -> Q -> Q -> Q * Q * Q)
  (random : nat -> Q) (s : State) (colors : list Q) : option (list Q) :=
  let count := particleCount s in
  let '(hueBase, hueRange) := hues (currentGesture s) in
  colourLoop setHSL random count (updateInterval count) hueBase hueRange
    count 0 0 colors.

(** The colour array [createParticleSystem] fills: particle [i] gets
    [setHSL(0.5 + Math.random() * 0.1, 1, 0.5)]; that draw is the fourth of
    the nine the loop body makes for a particle. *)
Definition initialColors (setHSL : Q -> Q -> Q -> Q * Q * Q)
  (random : nat -> Q) (count : nat) : list Q :=
  flat_map (fun i : nat =>
              let hue := (0.5 + random (9 * i + 3)%nat * 0.1)%Q in
              let '(r, g, b) := setHSL hue 1 0.5 in
              [r; g; b])
           (seq 0 count).

(** The colour array after [n] frames of [animate], which runs one colour
    pass a frame, while [state] stays as it is; [random f k] is the [k]-th
    number [Math.random()] returns during frame [f]. *)
Fixpoint colourFrames (setHSL : Q -> Q -> Q -> Q * Q * Q)
  (random : nat -> nat -> Q) (s : State) (n : nat) (colors : list Q)
  : option (list Q) :=
  match n with
  | O => Some colors
  | S n' =>
      match colourFrames setHSL random s n' colors with
      | Some colors' => updateParticleColors setHSL (random n') s colors'
      | None => None
      end
  end.

(** ** The particle vertex shader *)

Module Shader.

Local Open Scope R_scope.

Record vec3 := mkVec3 { v_x : R; v_y : R; v_z : R }.

(** The [random] attribute: [random.x] to [random.w]. *)
Record vec4 := mkVec4 { r_x : R; r_y : R; r_z : R; r_w : R }.

(** GLSL built-ins. *)
Definition step (edge x : R) : R := if Rlt_dec x edge then 0 else 1.

Definition floor (x : R) : R := IZR (Int_part x).

Definition mix (x y a : R) : R := x * (1 - a) + y * a.

Definition mix3 (p q : vec3) (a : R) : vec3 :=
  mkVec3 (mix (v_x p) (v_x q) a) (mix (v_y p) (v_y q) a)
         (mix (v_z p) (v_z q) a).

Definition add3 (p q : vec3) : vec3 :=
  mkVec3 (v_x p + v_x q) (v_y p + v_y q) (v_z p + v_z q).

Definition scale3 (p : vec3) (k : R) : vec3 :=
  mkVec3 (v_x p * k) (v_y p * k) (v_z p * k).

(** The locals [target], [blend] and [pos] of [main], as they stand when
    [main] hands [pos] to the projection. *)
Record Locals := mkLocals { target : vec3; blend : R; pos : vec3 }.

Section Main.

(** GLSL [pow(x, y)].  Its result is undefined for [x < 0], so it stays
    a parameter; the theorems assume of it what GLSL defines. *)
Variable pow : R -> R -> R.

(** Attributes and uniforms. *)
Variables (position : vec3) (random : vec4).
Variables (time : R) (handPos : vec3) (gesture : Z).

(** [main()] of the vertex shader, up to the final value of [pos]. *)
Definition main : Locals :=
  let pos := position in
  let t := time * 2 in
  let r := r_x random in
  let speed := r_y random * 0.5 + 0.5 in
  let phase := r_z random * 6.28318 in
  let hand := scale3 handPos 500 in
  let '(target, blend) :=
    if (gesture =? 1)%Z then
      let ringAngle := r * 6.28318 + t * 0.3 in
      let ringRadius := 120 + r * 80 in
      let isRing := step 0.3 (r_w random) in
      (if Rlt_dec 0.5 isRing then
         mkVec3 (v_x hand + cos ringAngle * ringRadius)
                (v_y hand + sin ringAngle * ringRadius * 0.2)
                (v_z hand + sin ringAngle * ringRadius * 0.5)
       else
         let planetR := r * 60 in
         let theta := r_w random * 3.14159 in
         let phi := r * 6.28318 in
         mkVec3 (v_x hand + planetR * sin theta * cos (phi + t * 0.5))
                (v_y hand + planetR * sin theta * sin (phi + t * 0.5))
                (v_z hand + planetR * cos theta),
       0.95)
    else if (gesture =? 2)%Z then
      let isCenter := step 0.3 (r_w random) in
      let sphereR := r * 50 in
      (if Rlt_dec 0.5 isCenter then
         let theta := r * 3.14159 in
         let phi := r_w random * 6.28318 in
         mkVec3 (v_x hand + sphereR * sin theta * cos phi)
                (v_y hand + sphereR * sin theta * sin phi)
                (v_z hand + sphereR * cos theta)
       else
         let wanderR := 200 + r * 200 in
         let angle := t * 0.2 + phase in
         mkVec3 (v_x hand + cos angle * wanderR)
                (v_y hand + sin (angle * 1.3) * wanderR)
                (v_z hand + sin (t + r * 10) * 100),
       0.9)
    else if (gesture =? 3)%Z then
      let charIndex := floor (r * 7) in
      let charX := (charIndex - 3) * 40 in
      let yOffset := sin (r * 20 + t) * 5 in
      (mkVec3 (v_x hand + charX + (r_w random - 0.5) * 30)
              (v_y hand + yOffset + (r - 0.5) * 60)
              (v_z hand + sin (t * 2 + r * 10) * 20),
       0.92)
    else if (gesture =? 4)%Z then
      let heartT := r * 6.28318 in
      let beat := 1 + sin (t * 8) * 0.1 in
      let heartX := 16 * pow (sin heartT) 3 in
      let heartY := 13 * cos heartT - 5 * cos (2 * heartT)
                    - 2 * cos (3 * heartT) - cos (4 * heartT) in
      let scale := 5 * beat in
      (mkVec3 (v_x hand + heartX * scale)
              (v_y hand - heartY * scale + 20)
              (v_z hand + sin (heartT * 3 + t) * 30),
       0.94)
    else
      (mkVec3 (v_x pos + sin (t * speed + phase) * 50)
              (v_y pos + cos (t * speed * 0.7 + phase) * 50)
              (v_z pos + sin (t * 0.3 + r * 10) * 30),
       0.02) in
  let pos := mix3 pos target (blend * 0.1) in
  let pos :=
    add3 pos (mkVec3 (sin (t + r * 10) * 2)
                     (cos (t + r * 10) * 2)
                     (sin (t * 0.5 + r * 10) * 2)) in
  mkLocals target blend pos.

End Main.

(** What GLSL defines of [pow(x, y)]: [x] to the power [y] for [x > 0],
    and 0 for [x = 0] and [y > 0]. *)
Definition glsl_pow (pow : R -> R -> R) : Prop :=
  (forall x y : R, 0 < x -> pow x y = Rpower x y) /\
  (forall y : R, 0 < y -> pow 0 y = 0).

(** One such [pow]. *)
Definition pow_total (x y : R) : R :=
  if Rlt_dec 0 x then Rpower x y else 0.

End Shader.

(** ** Vocabulary of the statements *)

(** The landmark with index [i] of a hand that has one. *)
Definition landmarkAt (landmarks : list Landmark) (i : nat) : Landmark :=
  nth i landmarks (mkLandmark 0 0 0).

(** The finger states the code computes for a hand of 21 landmarks. *)
Definition fingersOf (landmarks : list Landmark) : Fingers :=
  let extended (tipIdx baseIdx : nat) :=
    Qltb (ly (landmarkAt landmarks tipIdx))
         (ly (landmarkAt landmarks baseIdx) - 0.05) in
  mkFingers
    (Qltb 0.05
       (Qabs (lx (landmarkAt landmarks 4) - lx (landmarkAt landmarks 2))))
    (extended 8%nat 5%nat) (extended 12%nat 9%nat) (extended 16%nat 13%nat)
    (extended 20%nat 17%nat).

(** The classification rule in the words of the specification: the four
    patterns, and the previous gesture for the other twelve combinations. *)
Definition gestureTable (f : Fingers) (previous : string) : string :=
  match index f, middle f, ring f, pinky f with
  | true, false, false, true => GESTURES.METAL
  | true, true, false, false => GESTURES.PEACE
  | false, false, false, false => GESTURES.FIST
  | true, true, true, true => GESTURES.OPEN
  | _, _, _, _ => previous
  end.

(** A hand of 21 landmarks at palm position [(px, py, pz)] whose four
    fingers are raised or folded as the booleans say: the finger bases lie at
    height [py], a raised tip 0.2 above (smaller [y]), a folded one 0.1
    below. *)
Definition sampleHand (px py pz : Q) (i m r p : bool) : list Landmark :=
  let tip (up : bool) := if up then (py - 0.2)%Q else (py + 0.1)%Q in
  map (fun k : nat =>
         mkLandmark px
           (if Nat.eqb k 8 then tip i
            else if Nat.eqb k 12 then tip m
            else if Nat.eqb k 16 then tip r
            else if Nat.eqb k 20 then tip p
            else py)
           pz)
      (seq 0 21).

(** The anchor in the words of the specification: the midpoint of wrist and
    middle-finger base, x mirrored, y flipped, z negated and clamped. *)
Definition anchorOf (wrist middleBase : Landmark) : Vector3 :=
  let avgX := ((lx wrist + lx middleBase) / 2)%Q in
  let avgY := ((ly wrist + ly middleBase) / 2)%Q in
  let avgZ := ((lz wrist + lz middleBase) / 2)%Q in
  mkVector3 ((1 - avgX) * 2 - 1) (- (avgY * 2 - 1))
            (Qmax (-1) (Qmin 1 (- avgZ))).

(** The world with [state.handPosition] moved to [a], and with [f] applied
    to [state]. *)
Definition placeHand (a : Vector3) (s : State) : State :=
  set_handPosition_z (vz a) (set_handPosition_y (vy a)
    (set_handPosition_x (vx a) s)).

Definition withState (f : State -> State) (w : World) : World :=
  snd (modifyState f w).

(** What ties the override flag to the timer queue: without an override
    nothing is pending; under an override exactly the timer of
    [state.forcedShapeTimer] is, due within the next 5000 ms. *)
Definition overrideInvariant (w : World) : Prop :=
  (isForcedShape (state w) = false /\ timers w = []) \/
  (exists (h : positive) (d : N),
      isForcedShape (state w) = true /\
      forcedShapeTimer (state w) = Some h /\
      timers w = [mkTimer h d revertForcedShape] /\
      (clock w < d <= clock w + 5000)%N).

(** The colour of particle [j] in the flat colour array. *)
Definition rgbAt (colors : list Q) (j : nat) : Q * Q * Q :=
  (nth (j * 3) colors 0, nth (j * 3 + 1) colors 0, nth (j * 3 + 2) colors 0).

(** How many particles of [count] one colour pass visits. *)
Definition touched (count : nat) : nat :=
  length (filter (fun j => Nat.eqb (Nat.modulo j (updateInterval count)) 0)
            (seq 0 count)).

(** The world a handler leaves behind. *)
Definition after {A} (c : JS A) (w : World) : World := snd (c w).

(** A frame of the tracker that shows the hand [landmarks]. *)
Definition handFrame (landmarks : list Landmark) : Results :=
  mkResults (Some [landmarks]).

(** Sample inputs: a frame showing an open hand at the centre of the
    image, and an open hand at (0.3, 0.4, 0). *)
Definition openHandFrame : event :=
  HandFrame (handFrame (sampleHand 0.5 0.5 0 true true true true)).

Definition offCentreHand : list Landmark :=
  sampleHand 0.3 0.4 0 true true true true.

(** A stand-in for [setHSL] that keeps the three numbers apart, and the
    state of a narrow window showing a fist. *)
Definition plainHSL (h s l : Q) : Q * Q * Q := (h, s, l).

Definition fistState : State :=
  set_currentGesture GESTURES.FIST (initialState 500).

(** The page after one frame with the open hand and a forced FIST. *)
Definition forcedFistWorld : World :=
  step (run [openHandFrame] (initialWorld 1024)) (Force "fist").

(** ** Particle creation, resize and the frame loop *)

(** The attribute arrays [createParticleSystem] hands to the geometry:
    [position], [color], [size] and [random].  They are [Float32Array]s: a
    number is rounded on its way in. *)
Record Attributes := mkAttributes {
  position_attr : list Q;
  color_attr : list Q;
  size_attr : list Q;
  random_attr : list Q
}.

(** What the statements assume of the rounding [store] a [Float32Array]
    applies to the number it is handed: it keeps the order and leaves the
    numbers -500, 0, 1, 4 and 500, which a float holds exactly, as they
    are. *)
Definition roundsToFloat (store : Q -> Q) : Prop :=
  (forall x y : Q, x <= y -> store x <= store y) /\
  store (-500) == -500 /\ store 0 == 0 /\ store 1 == 1 /\
  store 4 == 4 /\ store 500 == 500.

(** [createParticleSystem()]: the loop body draws nine random numbers for a
    particle, three for the position, one for the hue, one for the size and
    four for the [random] attribute; [random k] is the [k]-th draw, and
    [store] the rounding of the arrays. *)
Definition createParticleSystem (store : Q -> Q)
  (setHSL : Q -> Q -> Q -> Q * Q * Q) (random : nat -> Q) (s : State)
  : Attributes :=
  let count := particleCount s in
  {| position_attr :=
       flat_map (fun i : nat =>
                   [ store ((random (9 * i)%nat - 0.5) * 1000);
                     store ((random (9 * i + 1)%nat - 0.5) * 1000);
                     store ((random (9 * i + 2)%nat - 0.5) * 1000) ])
                (seq 0 count);
     color_attr := map store (initialColors setHSL random count);
     size_attr :=
       map (fun i : nat => store (random (9 * i + 4)%nat * 3 + 1))
           (seq 0 count);
     random_attr :=
       flat_map (fun i : nat =>
                   [ store (random (9 * i + 5)%nat);
                     store (random (9 * i + 6)%nat);
                     store (random (9 * i + 7)%nat);
                     store (random (9 * i + 8)%nat) ])
                (seq 0 count) |}.

Definition set_particleCount (n : nat) (s : State) : State :=
  {| handPosition := handPosition s;
     currentGesture := currentGesture s; customText := customText s;
     isForcedShape := isForcedShape s; forcedShapeTimer := forcedShapeTimer s;
     time := time s; particleCount := n |}.


(** [onWindowResize()], as far as the particles go: the count follows the
    new width and the particle system is created anew. *)
Definition onWindowResize (store : Q -> Q)
  (setHSL : Q -> Q -> Q -> Q * Q * Q) (random : nat -> Q) (innerWidth : nat)
  (s : State) : State * Attributes :=
  let s' := set_particleCount (if Nat.ltb innerWidth 768 then 2000 else 4000) s
  in (s', createParticleSystem store setHSL random s').




(** ** The star field *)

Module Sky.

Local Open Scope R_scope.

(** The position [createStarField] gives a star from its three random
    draws.  The trigonometry takes the numbers to the reals. *)
Definition starPosition (u1 u2 u3 : R) : Shader.vec3 :=
  let r := 800 + u1 * 1000 in
  let theta := u2 * PI * 2 in
  let phi := acos (2 * u3 - 1) in
  Shader.mkVec3 (r * sin phi * cos theta) (r * sin phi * sin theta)
                (r * cos phi).

(** [vOpacity] of the star vertex shader. *)
Definition starOpacity (opacity time x : R) : R :=
  opacity * (0.5 + 0.5 * sin (time * 2 + x * 0.01)).

End Sky.

(** ** The particle fragment shader *)

Module Fragment.

Local Open Scope R_scope.

(** [main()] of the particle fragment shader at point coordinate
    [(cx, cy)]: [None] for a discarded fragment, else the alpha of
    [gl_FragColor]; the colour channels are [vColor] unchanged. *)
Definition main (pow : R -> R -> R) (cx cy vAlpha : R) : option R :=
  let dist := sqrt ((cx - 0.5) * (cx - 0.5) + (cy - 0.5) * (cy - 0.5)) in
  if Rlt_dec 0.5 dist then None
  else
    let glow := 1 - dist * 2 in
    let glow := pow glow 1.5 in
    Some (glow * vAlpha).

End Fragment.

(** ** More vocabulary *)

(** The five values of [GESTURES]. *)
Definition isGestureValue (g : string) : Prop :=
  g = GESTURES.NONE \/ g = GESTURES.FIST \/ g = GESTURES.OPEN \/
  g = GESTURES.PEACE \/ g = GESTURES.METAL.

(** The shapes a run forces. *)
Fixpoint forcedShapes (evs : list event) : list string :=
  match evs with
  | [] => []
  | Force shape :: evs' => shape :: forcedShapes evs'
  | _ :: evs' => forcedShapes evs'
  end.


(** ** Drawing the particles *)

(** The uniforms [animate] sets for a frame. *)
Record Uniforms := mkUniforms {
  u_time : R;
  u_handPos : Shader.vec3;
  u_gesture : Z
}.

(** The [position] and [random] attributes of the particle geometry. *)
Record Geometry := mkGeometry {
  g_position : list Shader.vec3;
  g_random : list Shader.vec4
}.

(** One draw of the particle system: the vertex shader runs on the
    attributes of each particle, and the positions it hands on are drawn.
    The attributes are inputs of the shader, whose [pos] is a local, and
    [animate] assigns uniforms and colours only: the geometry comes out of a
    frame as it went in.  The result is the geometry after the frame and the
    positions drawn. *)
Definition drawParticles (pow : R -> R -> R) (u : Uniforms) (g : Geometry)
  : Geometry * list Shader.vec3 :=
  (g,
   map (fun a : Shader.vec3 * Shader.vec4 =>
          Shader.pos (Shader.main pow (fst a) (snd a) (u_time u) (u_handPos u)
                        (u_gesture u)))
       (combine (g_position g) (g_random g))).

(** Frame after frame, each with its uniforms. *)
Fixpoint drawFrames (pow : R -> R -> R) (us : list Uniforms) (g : Geometry)
  : Geometry * list (list Shader.vec3) :=
  match us with
  | [] => (g, [])
  | u :: us' =>
      let '(g1, drawn) := drawParticles pow u g in
      let '(g2, later) := drawFrames pow us' g1 in
      (g2, drawn :: later)
  end.

(** One particle at the origin with [r0 = 0] and [r3 = 0.5], and the
    uniforms of a frame at time 0 that shows a fist at the centre. *)
Definition loneParticle : Geometry :=
  mkGeometry [Shader.mkVec3 0 0 0] [Shader.mkVec4 0 0 0 (1 / 2)].

Definition fistFrame : Uniforms :=
  mkUniforms 0 (Shader.mkVec3 0 0 0) 1.

(** * Properties *)

(** ** Comparisons *)

Lemma Qltb_lt (a b : Q) : Qltb a b = true <-> (a < b)%Q.
Proof.
  unfold Qltb. rewrite negb_true_iff, <- not_true_iff_false, Qle_bool_iff.
  split; [apply Qnot_le_lt | apply Qlt_not_le].
Qed.

(** ** Running the classifier on a full hand *)

Lemma nth_error_landmarkAt (landmarks : list Landmark) (i : nat) :
  (i < length landmarks)%nat ->
  nth_error landmarks i = Some (landmarkAt landmarks i).
Proof. intros H. unfold landmarkAt. now apply nth_error_nth'. Qed.

Lemma isFingerExtended_run (landmarks : list Landmark) (tipIdx baseIdx : nat)
  (w : World) :
  (tipIdx < length landmarks)%nat -> (baseIdx < length landmarks)%nat ->
  isFingerExtended landmarks tipIdx baseIdx w =
  (Normal (Qltb (ly (landmarkAt landmarks tipIdx))
                (ly (landmarkAt landmarks baseIdx) - 0.05)), w).
Proof.
  intros Ht Hb. unfold isFingerExtended.
  rewrite (nth_error_landmarkAt _ _ Ht), (nth_error_landmarkAt _ _ Hb).
  reflexivity.
Qed.

Lemma isThumbExtended_run (landmarks : list Landmark) (w : World) :
  (4 < length landmarks)%nat ->
  isThumbExtended landmarks w =
  (Normal (Qltb 0.05 (Qabs (lx (landmarkAt landmarks 4)
                            - lx (landmarkAt landmarks 2)))), w).
Proof.
  intros H. unfold isThumbExtended.
  rewrite (nth_error_landmarkAt landmarks 4), (nth_error_landmarkAt landmarks 2)
    by lia.
  reflexivity.
Qed.

Lemma fingerStates_run (landmarks : list Landmark) (w : World) :
  (20 < length landmarks)%nat ->
  fingerStates landmarks w = (Normal (fingersOf landmarks), w).
Proof.
  intros H. unfold fingerStates, bind.
  rewrite isThumbExtended_run by lia.
  rewrite !isFingerExtended_run by lia.
  reflexivity.
Qed.

(** [detectGesture] reads the state and never writes it. *)
Lemma detectGesture_world (landmarks : list Landmark) (w : World) :
  snd (detectGesture landmarks w) = w.
Proof.
  unfold detectGesture, fingerStates, isThumbExtended, isFingerExtended,
    member, bind, ret, throw, getState.
  repeat match goal with
         | |- context [nth_error ?l ?i] => destruct (nth_error l i)
         end; cbn;
  repeat match goal with
         | |- context [if ?b then _ else _] => destruct b; cbn
         end; reflexivity.
Qed.

Lemma detectGesture_run (landmarks : list Landmark) (w : World) :
  (20 < length landmarks)%nat ->
  detectGesture landmarks w =
  (Normal (gestureTable (fingersOf landmarks) (currentGesture (state w))), w).
Proof.
  intros H. unfold detectGesture, bind.
  rewrite fingerStates_run by assumption.
  unfold gestureTable.
  destruct (index (fingersOf landmarks)), (middle (fingersOf landmarks)),
    (ring (fingersOf landmarks)), (pinky (fingersOf landmarks)); reflexivity.
Qed.

Example detectGesture_metal :
  fst (detectGesture (sampleHand 0.5 0.5 0 true false false true)
         (initialWorld 1024)) = Normal "metal".
Proof. vm_compute. reflexivity. Qed.

Example detectGesture_ambiguous :
  fst (detectGesture (sampleHand 0.5 0.5 0 true true true false)
         (after (forceShape "peace") (initialWorld 1024))) = Normal "peace".
Proof. vm_compute. reflexivity. Qed.

(** ** Running the tracker callback *)

Lemma onHandResults_hand (landmarks : list Landmark)
  (rest : list (list Landmark)) (w : World) :
  (9 < length landmarks)%nat ->
  let w1 := withState (placeHand (anchorOf (landmarkAt landmarks 0)
                                           (landmarkAt landmarks 9))) w in
  onHandResults (mkResults (Some (landmarks :: rest))) w =
  if isForcedShape (state w) then (Normal tt, w1)
  else (g <- detectGesture landmarks ;; modifyState (set_currentGesture g)) w1.
Proof.
  intros H w1. unfold onHandResults. cbn [multiHandLandmarks].
  rewrite (nth_error_landmarkAt landmarks 0), (nth_error_landmarkAt landmarks 9)
    by lia.
  unfold bind, member, ret, modifyState, getState. cbn.
  destruct (isForcedShape (state w)); reflexivity.
Qed.

Lemma onHandResults_noHand (results : Results) (w : World) :
  multiHandLandmarks results = None \/ multiHandLandmarks results = Some [] ->
  onHandResults results w =
  (Normal tt,
   if isForcedShape (state w) then w
   else withState (set_currentGesture GESTURES.NONE) w).
Proof.
  intros [H | H]; unfold onHandResults; rewrite H;
    unfold bind, getState, ret; cbn;
    destruct (isForcedShape (state w)); reflexivity.
Qed.

(** Whatever the classifier does, the anchor written before it stays. *)
Lemma onHandResults_handPosition (landmarks : list Landmark)
  (rest : list (list Landmark)) (w : World) :
  (9 < length landmarks)%nat ->
  handPosition
    (state (after (onHandResults (mkResults (Some (landmarks :: rest)))) w)) =
  anchorOf (landmarkAt landmarks 0) (landmarkAt landmarks 9).
Proof.
  intros H. unfold after. rewrite onHandResults_hand by assumption.
  destruct (isForcedShape (state w)); [reflexivity |].
  unfold bind.
  match goal with
  | |- context [detectGesture ?l ?w1] =>
      pose proof (detectGesture_world l w1) as Hw;
      destruct (detectGesture l w1) as [[g | e] w2]
  end; cbn in Hw; subst; reflexivity.
Qed.

Example detectGesture_all_sixteen :
  forall i m r p : bool,
    fst (detectGesture (sampleHand 0.5 0.5 0 i m r p)
           (after (forceShape "peace") (initialWorld 1024))) =
    Normal (gestureTable (mkFingers false i m r p) "peace").
Proof. intros [|] [|] [|] [|]; vm_compute; reflexivity. Qed.

Example short_hand_throws :
  fst (onHandResults
         (handFrame (firstn 12 (sampleHand 0.5 0.5 0 true true true true)))
         (initialWorld 1024)) = Throw TypeError.
Proof. vm_compute. reflexivity. Qed.

(** ** The classifier *)

(** C1.  On every hand of 21 landmarks and for every previous gesture, the
    gesture [detectGesture] returns is fixed by the four finger booleans the
    code computes: index and pinky alone give METAL, index and middle alone
    give PEACE, none gives FIST, all four give OPEN, and each of the other
    twelve combinations gives the gesture that was current before; an
    unforced tracker frame stores exactly that gesture. *)
Theorem detectGesture_priority_table :
  forall (landmarks : list Landmark) (w : World),
    (20 < length landmarks)%nat ->
    exists (f : Fingers) (g : string),
      fingerStates landmarks w = (Normal f, w) /\
      detectGesture landmarks w = (Normal g, w) /\
      (index f = true /\ middle f = false /\
       ring f = false /\ pinky f = true -> g = GESTURES.METAL) /\
      (index f = true /\ middle f = true /\
       ring f = false /\ pinky f = false -> g = GESTURES.PEACE) /\
      (index f = false /\ middle f = false /\
       ring f = false /\ pinky f = false -> g = GESTURES.FIST) /\
      (index f = true /\ middle f = true /\
       ring f = true /\ pinky f = true -> g = GESTURES.OPEN) /\
      (~ (index f = true /\ middle f = false /\
          ring f = false /\ pinky f = true) ->
       ~ (index f = true /\ middle f = true /\
          ring f = false /\ pinky f = false) ->
       ~ (index f = false /\ middle f = false /\
          ring f = false /\ pinky f = false) ->
       ~ (index f = true /\ middle f = true /\
          ring f = true /\ pinky f = true) ->
       g = currentGesture (state w)) /\
      (isForcedShape (state w) = false ->
       currentGesture
         (state (after (onHandResults (handFrame landmarks)) w)) = g).
Proof.
  intros landmarks w Hlen.
  exists (fingersOf landmarks),
         (gestureTable (fingersOf landmarks) (currentGesture (state w))).
  split; [now apply fingerStates_run |].
  split; [now apply detectGesture_run |].
  unfold gestureTable.
  repeat split.
  1-5: destruct (index (fingersOf landmarks)), (middle (fingersOf landmarks)),
         (ring (fingersOf landmarks)), (pinky (fingersOf landmarks));
       intuition congruence.
  intros Hfree. unfold after, handFrame.
  rewrite onHandResults_hand by lia. rewrite Hfree.
  unfold bind. rewrite detectGesture_run by assumption. reflexivity.
Qed.

Lemma detectGesture_priority_table_witness :
  exists (f : Fingers) (g : string),
    fingerStates (sampleHand 0.5 0.5 0 true true true false)
      (initialWorld 1024) = (Normal f, initialWorld 1024) /\
    detectGesture (sampleHand 0.5 0.5 0 true true true false)
      (initialWorld 1024) = (Normal g, initialWorld 1024).
Proof.
  destruct (detectGesture_priority_table
              (sampleHand 0.5 0.5 0 true true true false) (initialWorld 1024))
    as (f & g & Hf & Hg & _).
  - cbn. lia.
  - exists f, g. split; assumption.
Defined.

(** C7.  On every hand of 21 landmarks, index, middle, ring and pinky (tips
    8, 12, 16, 20 over bases 5, 9, 13, 17) count as extended exactly when the
    tip's y is smaller than the base's y minus 0.05, and the thumb (tip 4,
    base 2) exactly when the absolute x distance of tip and base exceeds
    0.05. *)
Theorem finger_extension_test :
  forall (landmarks : list Landmark) (w : World),
    (20 < length landmarks)%nat ->
    let at_ := landmarkAt landmarks in
    exists f : Fingers,
      fingerStates landmarks w = (Normal f, w) /\
      (index f = true <-> ly (at_ 8%nat) < ly (at_ 5%nat) - 0.05) /\
      (middle f = true <-> ly (at_ 12%nat) < ly (at_ 9%nat) - 0.05) /\
      (ring f = true <-> ly (at_ 16%nat) < ly (at_ 13%nat) - 0.05) /\
      (pinky f = true <-> ly (at_ 20%nat) < ly (at_ 17%nat) - 0.05) /\
      (thumb f = true <-> Qabs (lx (at_ 4%nat) - lx (at_ 2%nat)) > 0.05).
Proof.
  intros landmarks w Hlen at_.
  exists (fingersOf landmarks).
  split; [now apply fingerStates_run |].
  unfold fingersOf; cbn [thumb index middle ring pinky].
  repeat split; try (apply Qltb_lt; assumption); intros H;
    apply Qltb_lt in H; exact H.
Qed.

Lemma finger_extension_test_witness :
  exists f : Fingers,
    fingerStates (sampleHand 0.5 0.5 0 true false false true)
      (initialWorld 1024) = (Normal f, initialWorld 1024) /\
    index f = true /\ middle f = false.
Proof.
  destruct (finger_extension_test
              (sampleHand 0.5 0.5 0 true false false true) (initialWorld 1024))
    as (f & Hf & Hi & Hm & _).
  - cbn. lia.
  - exists f. split; [exact Hf |]. split.
    + apply Hi. vm_compute. reflexivity.
    + destruct (middle f); [| reflexivity].
      exfalso. assert (E : true = true) by reflexivity.
      apply Hm in E. vm_compute in E. discriminate E.
Defined.

(** ** The anchor *)

Lemma clamp_range (v : Q) : -1 <= Qmax (-1) (Qmin 1 v) <= 1.
Proof.
  split; [apply Q.le_max_l |].
  apply Q.max_lub; [discriminate | apply Q.le_min_l].
Qed.

Lemma clamp_inside (v : Q) : -1 <= v <= 1 -> Qmax (-1) (Qmin 1 v) == v.
Proof.
  intros [Hlo Hhi]. rewrite (Q.min_r 1 v) by assumption.
  now apply Q.max_r.
Qed.

Lemma clamp_above (v : Q) : 1 < v -> Qmax (-1) (Qmin 1 v) == 1.
Proof.
  intros H. rewrite (Q.min_l 1 v) by now apply Qlt_le_weak.
  apply Q.max_r. discriminate.
Qed.

Lemma clamp_below (v : Q) : v < -1 -> Qmax (-1) (Qmin 1 v) == -1.
Proof.
  intros H. apply Q.max_l.
  apply Qle_trans with v; [apply Q.le_min_r | now apply Qlt_le_weak].
Qed.

(** C6.  Whenever the frame shows a hand (landmarks 0 and 9 exist), the
    anchor written to [state.handPosition] comes from the midpoint of wrist
    and middle-finger base: x is [(1 - avgX) * 2 - 1], y is
    [-(avgY * 2 - 1)], z is the negated average depth clamped to [-1, 1];
    for wrist = middle base = (0.3, 0.4, 0) this is x = 0.4 and y = 0.2. *)
Theorem anchor_from_wrist_and_middle_base :
  forall (landmarks : list Landmark) (rest : list (list Landmark)) (w : World),
    (9 < length landmarks)%nat ->
    let wrist := landmarkAt landmarks 0 in
    let middleBase := landmarkAt landmarks 9 in
    let avgX := (lx wrist + lx middleBase) / 2 in
    let avgY := (ly wrist + ly middleBase) / 2 in
    let avgZ := (lz wrist + lz middleBase) / 2 in
    let anchor :=
      handPosition
        (state (after (onHandResults (mkResults (Some (landmarks :: rest)))) w))
    in
    vx anchor == (1 - avgX) * 2 - 1 /\
    vy anchor == - (avgY * 2 - 1) /\
    -1 <= vz anchor <= 1 /\
    (-1 <= - avgZ <= 1 -> vz anchor == - avgZ) /\
    (1 < - avgZ -> vz anchor == 1) /\
    (- avgZ < -1 -> vz anchor == -1) /\
    (lx wrist == 0.3 -> ly wrist == 0.4 ->
     lx middleBase == 0.3 -> ly middleBase == 0.4 ->
     vx anchor == 0.4 /\ vy anchor == 0.2).
Proof.
  intros landmarks rest w Hlen wrist middleBase avgX avgY avgZ anchor.
  unfold anchor. rewrite onHandResults_handPosition by assumption.
  fold wrist middleBase. unfold anchorOf. cbn [vx vy vz].
  fold avgX avgY avgZ.
  split; [reflexivity |]. split; [reflexivity |].
  split; [apply clamp_range |].
  split; [apply clamp_inside |].
  split; [apply clamp_above |].
  split; [apply clamp_below |].
  intros Hwx Hwy Hmx Hmy. unfold avgX, avgY.
  rewrite Hwx, Hwy, Hmx, Hmy. split; reflexivity.
Qed.

Lemma anchor_from_wrist_and_middle_base_witness :
  vx (handPosition
        (state (after (onHandResults (mkResults (Some [offCentreHand])))
                  (initialWorld 1024)))) == 0.4 /\
  vy (handPosition
        (state (after (onHandResults (mkResults (Some [offCentreHand])))
                  (initialWorld 1024)))) == 0.2.
Proof.
  destruct (anchor_from_wrist_and_middle_base offCentreHand []
              (initialWorld 1024))
    as (_ & _ & _ & _ & _ & _ & Hxy).
  - cbn. lia.
  - apply Hxy; reflexivity.
Defined.

(** ** Frames without a hand, frames under an override *)

(** C9.  A frame without a hand ([multiHandLandmarks] absent or empty)
    completes without an exception and leaves the anchor as it was; it sets
    the gesture to NONE when no override is active and keeps the forced
    gesture when one is. *)
Theorem no_hand_frame :
  forall (results : Results) (w : World),
    multiHandLandmarks results = None \/ multiHandLandmarks results = Some [] ->
    let w' := after (onHandResults results) w in
    fst (onHandResults results w) = Normal tt /\
    handPosition (state w') = handPosition (state w) /\
    (isForcedShape (state w) = false ->
     currentGesture (state w') = GESTURES.NONE) /\
    (isForcedShape (state w) = true ->
     currentGesture (state w') = currentGesture (state w) /\
     isForcedShape (state w') = true).
Proof.
  intros results w Hnone w'. unfold w', after.
  rewrite onHandResults_noHand by assumption. cbn [fst snd].
  split; [reflexivity |].
  destruct (isForcedShape (state w)) eqn:Hf; cbn.
  - repeat split; try discriminate; auto.
  - repeat split; try discriminate; auto.
Qed.

Lemma no_hand_frame_witness :
  currentGesture
    (state (after (onHandResults (mkResults (Some [])))
              (after (forceShape "fist") (initialWorld 1024)))) = "fist" /\
  currentGesture
    (state (after (onHandResults (mkResults None))
              (after (onHandResults (mkResults (Some [offCentreHand])))
                 (initialWorld 1024)))) = "none".
Proof.
  split.
  - destruct (no_hand_frame (mkResults (Some []))
                (after (forceShape "fist") (initialWorld 1024)))
      as (_ & _ & _ & Hforced).
    + right. reflexivity.
    + destruct Hforced as [Hg _]; [reflexivity |].
      rewrite Hg. reflexivity.
  - destruct (no_hand_frame (mkResults None)
                (after (onHandResults (mkResults (Some [offCentreHand])))
                   (initialWorld 1024)))
      as (_ & _ & Hfree & _).
    + left. reflexivity.
    + apply Hfree. reflexivity.
Defined.

(** C10.  While an override is active, a frame that shows a hand still
    moves the anchor to the position of that hand; only the classification
    is skipped: the forced gesture, the override flag and the pending timer
    stay as they were. *)
Theorem anchor_live_under_override :
  forall (landmarks : list Landmark) (rest : list (list Landmark)) (w : World),
    (9 < length landmarks)%nat ->
    isForcedShape (state w) = true ->
    let w' := after (onHandResults (mkResults (Some (landmarks :: rest)))) w in
    fst (onHandResults (mkResults (Some (landmarks :: rest))) w) = Normal tt /\
    handPosition (state w') =
      anchorOf (landmarkAt landmarks 0) (landmarkAt landmarks 9) /\
    currentGesture (state w') = currentGesture (state w) /\
    isForcedShape (state w') = true /\
    timers w' = timers w.
Proof.
  intros landmarks rest w Hlen Hforced w'. unfold w', after.
  rewrite onHandResults_hand by assumption. rewrite Hforced.
  cbn. repeat split; auto.
Qed.

Lemma anchor_live_under_override_witness :
  handPosition
    (state (after (onHandResults (mkResults (Some [offCentreHand])))
              forcedFistWorld)) =
  anchorOf (landmarkAt offCentreHand 0) (landmarkAt offCentreHand 9) /\
  currentGesture
    (state (after (onHandResults (mkResults (Some [offCentreHand])))
              forcedFistWorld)) = currentGesture (state forcedFistWorld).
Proof.
  destruct (anchor_live_under_override offCentreHand [] forcedFistWorld)
    as (_ & Hpos & Hg & _).
  - cbn. lia.
  - reflexivity.
  - split; [exact Hpos | exact Hg].
Defined.

(** ** The override and its timer *)

(** The tracker callback never touches the timer queue, the clock, the
    override flag or the stored handle, and under an override it keeps the
    gesture, whether it completes or throws. *)
Lemma onHandResults_frame (results : Results) (w : World) :
  let w' := after (onHandResults results) w in
  timers w' = timers w /\ clock w' = clock w /\
  nextHandle w' = nextHandle w /\
  isForcedShape (state w') = isForcedShape (state w) /\
  forcedShapeTimer (state w') = forcedShapeTimer (state w) /\
  (isForcedShape (state w) = true ->
   currentGesture (state w') = currentGesture (state w)).
Proof.
  unfold after, onHandResults.
  destruct (multiHandLandmarks results) as [[| landmarks rest] |].
  1, 3: unfold bind, getState, ret; cbn;
        destruct (isForcedShape (state w)) eqn:E; cbn; rewrite ?E;
        repeat split; auto; discriminate.
  destruct (nth_error landmarks 0) as [wrist |],
    (nth_error landmarks 9) as [middleBase |];
    unfold bind, member, modifyState, getState, ret, throw;
    cbn -[detectGesture]; try (repeat split; auto; fail).
  destruct (isForcedShape (state w)) eqn:E; cbn -[detectGesture];
    [repeat split; auto |].
  match goal with
  | |- context [detectGesture ?l ?w1] =>
      pose proof (detectGesture_world l w1) as Hw;
      destruct (detectGesture l w1) as [[g | e] w2]
  end; cbn in Hw; subst; cbn; rewrite ?E; repeat split; auto; discriminate.
Qed.

Lemma forceShape_run (shape : string) (w : World) :
  forceShape shape w =
  (Normal tt,
   {| state :=
        set_forcedShapeTimer (Some (nextHandle w))
          (set_isForcedShape true (set_currentGesture shape (state w)));
      clock := clock w;
      timers :=
        match forcedShapeTimer (state w) with
        | Some h => filter (fun t => negb (Pos.eqb (handle t) h)) (timers w)
        | None => timers w
        end ++ [mkTimer (nextHandle w) (clock w + 5000) revertForcedShape];
      nextHandle := Pos.succ (nextHandle w) |}).
Proof.
  unfold forceShape, bind, modifyState, getState, setTimeout, clearTimeout, ret.
  cbn. destruct (forcedShapeTimer (state w)); reflexivity.
Qed.

(** A new override replaces the pending timer. *)
Lemma forceShape_timers (shape : string) (w : World) :
  overrideInvariant w ->
  timers (after (forceShape shape) w) =
  [mkTimer (nextHandle w) (clock w + 5000) revertForcedShape].
Proof.
  intros Hinv. unfold after. rewrite forceShape_run. cbn [snd timers].
  destruct Hinv as [[_ Hq] | (h & d & _ & Hh & Hq & _)]; rewrite Hq.
  - destruct (forcedShapeTimer (state w)); reflexivity.
  - rewrite Hh. cbn. rewrite Pos.eqb_refl. reflexivity.
Qed.

Lemma elapse_idle (ms : N) (w : World) :
  timers w = [] ->
  elapse ms w =
  {| state := state w; clock := clock w + ms; timers := [];
     nextHandle := nextHandle w |}.
Proof. intros H. unfold elapse. rewrite H. reflexivity. Qed.

Lemma elapse_pending (ms : N) (w : World) (h : positive) (d : N)
  (cb : callback) :
  timers w = [mkTimer h d cb] -> (clock w + ms < d)%N ->
  elapse ms w =
  {| state := state w; clock := clock w + ms; timers := [mkTimer h d cb];
     nextHandle := nextHandle w |}.
Proof.
  intros H Hlt. unfold elapse. rewrite H. cbn.
  destruct (N.leb_spec d (clock w + ms)); [lia | reflexivity].
Qed.

Lemma elapse_fire (ms : N) (w : World) (h : positive) (d : N) :
  timers w = [mkTimer h d revertForcedShape] -> (d <= clock w + ms)%N ->
  elapse ms w =
  {| state := set_currentGesture GESTURES.NONE
                (set_isForcedShape false (state w));
     clock := clock w + ms; timers := []; nextHandle := nextHandle w |}.
Proof.
  intros H Hle. unfold elapse. rewrite H. cbn.
  destruct (N.leb_spec d (clock w + ms)); [reflexivity | lia].
Qed.

Lemma overrideInvariant_initial (innerWidth : nat) :
  overrideInvariant (initialWorld innerWidth).
Proof. left. split; reflexivity. Qed.

Lemma overrideInvariant_step (w : World) (e : event) :
  overrideInvariant w -> overrideInvariant (step w e).
Proof.
  intros Hinv. destruct e as [results | shape | ms]; cbn [step].
  - destruct (onHandResults_frame results w)
      as (Ht & Hc & _ & Hf & Hh & _).
    unfold after in *. unfold overrideInvariant.
    rewrite Ht, Hc, Hf, Hh. exact Hinv.
  - right. exists (nextHandle w), (clock w + 5000)%N.
    pose proof (forceShape_timers shape w Hinv) as Ht. unfold after in Ht.
    rewrite Ht. rewrite forceShape_run. cbn. repeat split; lia.
  - destruct Hinv as [[Hf Hq] | (h & d & Hf & Hh & Hq & Hd)].
    + left. rewrite elapse_idle by assumption. cbn. auto.
    + destruct (N.leb_spec d (clock w + ms)).
      * left. rewrite (elapse_fire ms w h d) by assumption. cbn. auto.
      * right. exists h, d.
        rewrite (elapse_pending ms w h d revertForcedShape) by assumption.
        cbn. repeat split; auto; lia.
Qed.

Lemma run_cons (e : event) (evs : list event) (w : World) :
  run (e :: evs) w = run evs (step w e).
Proof. reflexivity. Qed.

Lemma run_app (evs evs' : list event) (w : World) :
  run (evs ++ evs') w = run evs' (run evs w).
Proof. unfold run. apply fold_left_app. Qed.

Lemma overrideInvariant_run (evs : list event) (w : World) :
  overrideInvariant w -> overrideInvariant (run evs w).
Proof.
  revert w. induction evs as [| e evs IH]; intros w Hinv; cbn.
  - exact Hinv.
  - apply IH. now apply overrideInvariant_step.
Qed.

(** Until the pending timer comes due, frames and the passing of time leave
    the forced gesture, the flag and the queue alone. *)
Lemma override_window (evs : list event) :
  forall (w : World) (h : positive) (d : N),
    unforced evs = true ->
    isForcedShape (state w) = true ->
    timers w = [mkTimer h d revertForcedShape] ->
    (clock w + elapsed evs < d)%N ->
    currentGesture (state (run evs w)) = currentGesture (state w) /\
    isForcedShape (state (run evs w)) = true /\
    timers (run evs w) = [mkTimer h d revertForcedShape] /\
    clock (run evs w) = (clock w + elapsed evs)%N.
Proof.
  induction evs as [| e evs IH]; intros w h d Hun Hf Hq Hlt.
  - cbn in *. repeat split; auto. lia.
  - rewrite !run_cons.
    destruct e as [results | shape | ms]; cbn in Hun, Hlt; cbn [step];
      [| discriminate |].
    + destruct (onHandResults_frame results w)
        as (Ht & Hc & _ & Hf' & _ & Hg).
      unfold after in *.
      set (w1 := snd (onHandResults results w)) in *.
      assert (G : currentGesture (state (run evs w1))
                  = currentGesture (state w1) /\
                  isForcedShape (state (run evs w1)) = true /\
                  timers (run evs w1) = [mkTimer h d revertForcedShape] /\
                  clock (run evs w1) = (clock w1 + elapsed evs)%N).
      { apply IH; congruence. }
      destruct G as (G1 & G2 & G3 & G4).
      rewrite G1, G4, Hc, (Hg Hf). repeat split; auto.
    + rewrite (elapse_pending ms w h d revertForcedShape) by (auto; lia).
      match goal with
      | |- context [run evs ?w1] =>
          assert (G : currentGesture (state (run evs w1))
                      = currentGesture (state w1) /\
                      isForcedShape (state (run evs w1)) = true /\
                      timers (run evs w1) = [mkTimer h d revertForcedShape] /\
                      clock (run evs w1) = (clock w1 + elapsed evs)%N)
            by (apply IH; auto; cbn; lia)
      end.
      destruct G as (G1 & G2 & G3 & G4).
      rewrite G1, G4. cbn. repeat split; auto. lia.
Qed.

Example override_expires_then_classifies :
  map (fun evs => currentGesture (state (run evs (initialWorld 1024))))
    [ [Force "fist"; openHandFrame; Elapse 4999; openHandFrame];
      [Force "fist"; openHandFrame; Elapse 5000];
      [Force "fist"; openHandFrame; Elapse 5000; openHandFrame] ] =
  ["fist"; "none"; "open"].
Proof. vm_compute. reflexivity. Qed.

Example override_replaces_timer :
  map due (timers (run [Force "fist"; Elapse 3000; Force "peace"]
                     (initialWorld 1024))) = [8000%N].
Proof. vm_compute. reflexivity. Qed.

(** C2.  In every world the page can reach, [forceShape] sets the forced
    gesture at once and leaves exactly one reversion timer pending (the
    earlier one, if any, is cancelled: no reachable world has two), due 5000
    ms later.  As long as less than 5000 ms have passed, no tracker frame
    changes the gesture; the moment 5000 ms have passed the gesture is NONE,
    whatever hands the frames in between showed, the override flag is off,
    nothing is pending, and the next frame with a hand is classified again. *)
Theorem forced_override_expiry :
  forall (innerWidth : nat) (history : list event) (shape : string),
    let w0 := run history (initialWorld innerWidth) in
    let w1 := step w0 (Force shape) in
    currentGesture (state w1) = shape /\
    isForcedShape (state w1) = true /\
    (length (timers w0) <= 1)%nat /\
    (exists h : positive,
        forcedShapeTimer (state w1) = Some h /\
        timers w1 = [mkTimer h (clock w1 + 5000) revertForcedShape]) /\
    (forall evs : list event,
        unforced evs = true -> (elapsed evs < 5000)%N ->
        currentGesture (state (run evs w1)) = shape /\
        isForcedShape (state (run evs w1)) = true) /\
    (forall (evs : list event) (ms : N),
        unforced evs = true -> (elapsed evs < 5000)%N ->
        (5000 <= elapsed evs + ms)%N ->
        let w2 := run (evs ++ [Elapse ms]) w1 in
        currentGesture (state w2) = GESTURES.NONE /\
        isForcedShape (state w2) = false /\
        timers w2 = [] /\
        forall landmarks : list Landmark,
          (20 < length landmarks)%nat ->
          currentGesture (state (step w2 (HandFrame (handFrame landmarks)))) =
          gestureTable (fingersOf landmarks) GESTURES.NONE).
Proof.
  intros innerWidth history shape w0 w1.
  assert (Hinv : overrideInvariant w0)
    by apply overrideInvariant_run, overrideInvariant_initial.
  assert (Hq : timers w1 =
               [mkTimer (nextHandle w0) (clock w0 + 5000) revertForcedShape])
    by apply (forceShape_timers shape w0 Hinv).
  assert (Hs : state w1 =
               set_forcedShapeTimer (Some (nextHandle w0))
                 (set_isForcedShape true (set_currentGesture shape (state w0))))
    by (unfold w1; cbn [step]; rewrite forceShape_run; reflexivity).
  assert (Hc : clock w1 = clock w0)
    by (unfold w1; cbn [step]; rewrite forceShape_run; reflexivity).
  assert (Hwin : forall evs : list event,
             unforced evs = true -> (elapsed evs < 5000)%N ->
             currentGesture (state (run evs w1)) = shape /\
             isForcedShape (state (run evs w1)) = true /\
             timers (run evs w1) =
               [mkTimer (nextHandle w0) (clock w0 + 5000) revertForcedShape] /\
             clock (run evs w1) = (clock w0 + elapsed evs)%N).
  { intros evs Hun Hlt.
    destruct (override_window evs w1 (nextHandle w0) (clock w0 + 5000)%N)
      as (G1 & G2 & G3 & G4); auto.
    - rewrite Hs. reflexivity.
    - rewrite Hc. lia.
    - rewrite G1, G4, Hs, Hc. repeat split; auto. }
  split; [rewrite Hs; reflexivity |].
  split; [rewrite Hs; reflexivity |].
  split.
  { destruct Hinv as [[_ H0] | (h & d & _ & _ & H1 & _)].
    - rewrite H0. cbn. lia.
    - rewrite H1. cbn. lia. }
  split.
  { exists (nextHandle w0). rewrite Hs, Hq, Hc. split; reflexivity. }
  split.
  { intros evs Hun Hlt. destruct (Hwin evs Hun Hlt) as (G1 & G2 & _).
    split; assumption. }
  intros evs ms Hun Hlt Hge w2.
  destruct (Hwin evs Hun Hlt) as (G1 & G2 & G3 & G4).
  assert (Hw2 : w2 =
                {| state := set_currentGesture GESTURES.NONE
                              (set_isForcedShape false (state (run evs w1)));
                   clock := clock (run evs w1) + ms; timers := [];
                   nextHandle := nextHandle (run evs w1) |}).
  { unfold w2. rewrite run_app. cbn [run fold_left step].
    apply (elapse_fire ms (run evs w1) (nextHandle w0) (clock w0 + 5000)%N).
    - exact G3.
    - rewrite G4. lia. }
  rewrite Hw2. cbn [state timers currentGesture isForcedShape].
  repeat split; try reflexivity.
  intros landmarks Hlen. cbn [step]. unfold handFrame.
  rewrite onHandResults_hand by lia. cbn [state isForcedShape set_currentGesture
    set_isForcedShape].
  unfold bind. rewrite detectGesture_run by assumption. reflexivity.
Qed.

Lemma forced_override_expiry_witness :
  currentGesture
    (state (run [openHandFrame; Elapse 4999; openHandFrame] forcedFistWorld))
  = "fist" /\
  currentGesture
    (state (run ([openHandFrame; Elapse 4999; openHandFrame] ++ [Elapse 1])
              forcedFistWorld))
  = GESTURES.NONE.
Proof.
  destruct (forced_override_expiry 1024 [openHandFrame] "fist")
    as (_ & _ & _ & _ & Hkeep & Hrevert).
  assert (Hun : unforced [openHandFrame; Elapse 4999; openHandFrame] = true)
    by reflexivity.
  assert (Hlt : (elapsed [openHandFrame; Elapse 4999; openHandFrame] < 5000)%N)
    by reflexivity.
  assert (Hge : (5000 <= elapsed [openHandFrame; Elapse 4999; openHandFrame]
                         + 1)%N)
    by discriminate.
  split.
  - exact (proj1 (Hkeep _ Hun Hlt)).
  - exact (proj1 (Hrevert _ 1%N Hun Hlt Hge)).
Defined.

(** ** The colour pass *)

Lemma array_set_length (a : list Q) (i : nat) (v : Q) :
  length (array_set a i v) = length a.
Proof.
  revert i. induction a as [| x a IH]; intros [| i]; cbn; auto.
Qed.

Lemma array_set_nth (a : list Q) (i p : nat) (v d : Q) :
  (i < length a)%nat ->
  nth p (array_set a i v) d = if Nat.eqb p i then v else nth p a d.
Proof.
  revert i p. induction a as [| x a IH]; intros i p Hi; cbn in Hi; [lia |].
  destruct i as [| i], p as [| p]; cbn; auto.
  apply IH. lia.
Qed.

Lemma rgbAt_write (colors : list Q) (i j : nat) (r g b : Q) :
  (i * 3 + 2 < length colors)%nat ->
  rgbAt (array_set (array_set (array_set colors (i * 3) r) (i * 3 + 1) g)
           (i * 3 + 2) b) j =
  if Nat.eqb j i then (r, g, b) else rgbAt colors j.
Proof.
  intros Hi. unfold rgbAt.
  rewrite !array_set_nth by (rewrite ?array_set_length; lia).
  destruct (Nat.eqb_spec j i) as [-> | Hne].
  - rewrite !Nat.eqb_refl.
    replace (Nat.eqb (i * 3) (i * 3 + 2)) with false
      by (symmetry; apply Nat.eqb_neq; lia).
    replace (Nat.eqb (i * 3) (i * 3 + 1)) with false
      by (symmetry; apply Nat.eqb_neq; lia).
    replace (Nat.eqb (i * 3 + 1) (i * 3 + 2)) with false
      by (symmetry; apply Nat.eqb_neq; lia).
    reflexivity.
  - repeat match goal with
           | |- context [Nat.eqb ?a ?b] =>
               replace (Nat.eqb a b) with false
                 by (symmetry; apply Nat.eqb_neq; lia)
           end.
    reflexivity.
Qed.

Lemma multiple_next (interval k j : nat) :
  (0 < interval)%nat -> Nat.modulo j interval = 0%nat ->
  (k * interval < j)%nat -> (S k * interval <= j)%nat.
Proof.
  intros Hpos Hmod Hlt.
  pose proof (Nat.div_mod_eq j interval) as E. rewrite Hmod in E.
  set (q := Nat.div j interval) in E.
  assert (Hq : (k < q)%nat).
  { destruct (Nat.lt_ge_cases k q) as [Hlt' | Hge]; [exact Hlt' |].
    pose proof (Nat.mul_le_mono_l q k interval Hge). lia. }
  pose proof (Nat.mul_le_mono_r (S k) q interval Hq). lia.
Qed.

Section ColourLoop.

Variable setHSL : Q -> Q -> Q -> Q * Q * Q.
Variable random : nat -> Q.
Variables (count interval : nat) (hueBase hueRange : Q).
Hypothesis interval_pos : (0 < interval)%nat.

Lemma colourLoop_spec (fuel : nat) :
  forall (k : nat) (colors : list Q),
    length colors = (count * 3)%nat ->
    (count <= k * interval + fuel)%nat ->
    exists colors' : list Q,
      colourLoop setHSL random count interval hueBase hueRange
        fuel (k * interval) k colors = Some colors' /\
      length colors' = length colors /\
      forall j : nat,
        (j < count)%nat ->
        ((k * interval <= j)%nat -> Nat.modulo j interval = 0%nat ->
         rgbAt colors' j =
         setHSL (hueBase + (random (Nat.div j interval) - 0.5) * hueRange)
           1 0.5) /\
        ((j < k * interval)%nat \/ Nat.modulo j interval <> 0%nat ->
         rgbAt colors' j = rgbAt colors j).
Proof.
  induction fuel as [| fuel IH]; intros k colors Hlen Hfuel.
  - exists colors. cbn [colourLoop].
    destruct (Nat.ltb_spec (k * interval) count); [lia |].
    repeat split; auto. intros; lia.
  - cbn [colourLoop].
    destruct (Nat.ltb_spec (k * interval) count) as [Hin | Hout].
    + destruct (setHSL (hueBase + (random k - 0.5) * hueRange) 1 0.5)
        as [[r g] b] eqn:Ehsl.
      set (colors1 :=
             array_set (array_set (array_set colors (k * interval * 3) r)
                          (k * interval * 3 + 1) g)
               (k * interval * 3 + 2) b).
      assert (Hlen1 : length colors1 = length colors)
        by (unfold colors1; now rewrite !array_set_length).
      replace (k * interval + interval)%nat with (S k * interval)%nat by lia.
      destruct (IH (S k) colors1) as (colors' & Hrun & Hlen' & Hcol);
        [congruence | cbn; lia |].
      exists colors'. split; [exact Hrun |]. split; [congruence |].
      intros j Hj. destruct (Hcol j Hj) as [Hnew Hold].
      assert (Hat : rgbAt colors1 j =
                    if Nat.eqb j (k * interval) then (r, g, b)
                    else rgbAt colors j)
        by (unfold colors1; apply rgbAt_write; lia).
      split.
      * intros Hge Hmod.
        destruct (Nat.eq_dec j (k * interval)) as [-> | Hne].
        -- rewrite Hold by (left; lia). rewrite Hat, Nat.eqb_refl.
           rewrite Nat.div_mul by lia. symmetry. exact Ehsl.
        -- apply Hnew; [| exact Hmod].
           apply multiple_next; auto; lia.
      * intros Hside.
        assert (Hne : j <> (k * interval)%nat).
        { destruct Hside as [Hlt | Hmod]; [lia |].
          intros ->. apply Hmod. apply Nat.Div0.mod_mul. }
        rewrite Hold.
        -- rewrite Hat. apply Nat.eqb_neq in Hne. now rewrite Hne.
        -- destruct Hside as [Hlt | Hmod]; [left; lia | right; exact Hmod].
    + exists colors. repeat split; auto. intros; lia.
Qed.

End ColourLoop.

Lemma hue_in_range (g : string) (u : Q) :
  0 <= u < 1 ->
  let hueBase := fst (hues g) in
  let hueRange := snd (hues g) in
  hueBase - hueRange / 2 <= hueBase + (u - 0.5) * hueRange
  < hueBase + hueRange / 2.
Proof.
  intros [Hlo Hhi]. unfold hues.
  repeat match goal with
         | |- context [String.eqb ?a ?b] => destruct (String.eqb a b)
         end;
    cbn [fst snd]; unfold Qdiv; cbn [Qinv Qnum Qden]; lra.
Qed.

Lemma updateInterval_pos (count : nat) : (0 < updateInterval count)%nat.
Proof. unfold updateInterval. lia. Qed.

(** One colour pass. *)
Lemma updateParticleColors_spec (setHSL : Q -> Q -> Q -> Q * Q * Q)
  (random : nat -> Q) (s : State) (colors : list Q) :
  length colors = (particleCount s * 3)%nat ->
  exists colors' : list Q,
    updateParticleColors setHSL random s colors = Some colors' /\
    length colors' = length colors /\
    forall j : nat,
      (j < particleCount s)%nat ->
      (Nat.modulo j (updateInterval (particleCount s)) = 0%nat ->
       rgbAt colors' j =
       setHSL (fst (hues (currentGesture s))
               + (random (Nat.div j (updateInterval (particleCount s))) - 0.5)
                 * snd (hues (currentGesture s))) 1 0.5) /\
      (Nat.modulo j (updateInterval (particleCount s)) <> 0%nat ->
       rgbAt colors' j = rgbAt colors j).
Proof.
  intros Hlen.
  destruct (colourLoop_spec setHSL random (particleCount s)
              (updateInterval (particleCount s))
              (fst (hues (currentGesture s))) (snd (hues (currentGesture s)))
              (updateInterval_pos (particleCount s)) (particleCount s) 0 colors)
    as (colors' & Hrun & Hlen' & Hcol); [exact Hlen | cbn; lia |].
  exists colors'. split.
  { unfold updateParticleColors.
    destruct (hues (currentGesture s)) as [b rg]. exact Hrun. }
  split; [exact Hlen' |].
  intros j Hj. destruct (Hcol j Hj) as [Hnew Hold]. split.
  - intros Hmod. apply Hnew; [cbn; lia | exact Hmod].
  - intros Hmod. apply Hold. right. exact Hmod.
Qed.

(** Any number of frames: the pass never fails and never reaches a particle
    off the stride. *)
Lemma colourFrames_untouched (setHSL : Q -> Q -> Q -> Q * Q * Q)
  (random : nat -> nat -> Q) (s : State) (colors : list Q) (n : nat) :
  length colors = (particleCount s * 3)%nat ->
  exists colors' : list Q,
    colourFrames setHSL random s n colors = Some colors' /\
    length colors' = length colors /\
    forall j : nat,
      (j < particleCount s)%nat ->
      Nat.modulo j (updateInterval (particleCount s)) <> 0%nat ->
      rgbAt colors' j = rgbAt colors j.
Proof.
  intros Hlen. induction n as [| n IH].
  - exists colors. repeat split; auto.
  - destruct IH as (colors1 & Hrun1 & Hlen1 & Hkeep1).
    destruct (updateParticleColors_spec setHSL (random n) s colors1)
      as (colors2 & Hrun2 & Hlen2 & Hcol2); [congruence |].
    exists colors2. cbn [colourFrames]. rewrite Hrun1.
    split; [exact Hrun2 |]. split; [congruence |].
    intros j Hj Hmod. destruct (Hcol2 j Hj) as [_ Hold].
    rewrite Hold by assumption. now apply Hkeep1.
Qed.

(** C5, as amended.  Over [N] particles with colours in an array of [3 N]
    numbers and [Math.random()] in [0, 1), every frame's colour pass ends,
    and after any frame each particle whose index is a multiple of the
    stride [max(1, floor(N / 300))] has the colour [setHSL(hue, 1, 0.5)]
    with [hue = hueBase + (Math.random() - 0.5) * hueRange] drawn in that
    frame, between [hueBase - hueRange / 2] and [hueBase + hueRange / 2];
    every other particle still has the colour it started with, however many
    frames have passed.  The pairs [(hueBase, hueRange)] are (0.5, 0.1) for
    NONE, (0.08, 0.1) for FIST, (0.4, 0.15) for OPEN, (0.6, 0.2) for PEACE
    and (0.95, 0.1) for METAL; of the page's 2000 or 4000 particles a pass
    visits 334 or 308. *)
Theorem colour_pass_resamples_strided_subset :
  forall (setHSL : Q -> Q -> Q -> Q * Q * Q) (random : nat -> nat -> Q)
         (s : State) (colors : list Q) (n : nat),
    length colors = (particleCount s * 3)%nat ->
    (forall f k : nat, 0 <= random f k < 1) ->
    let count := particleCount s in
    let stride := Nat.max 1 (Nat.div count 300) in
    let hueBase := fst (hues (currentGesture s)) in
    let hueRange := snd (hues (currentGesture s)) in
    exists colors' : list Q,
      colourFrames setHSL random s (S n) colors = Some colors' /\
      length colors' = length colors /\
      (forall j : nat,
          (j < count)%nat -> Nat.modulo j stride = 0%nat ->
          exists hue : Q,
            rgbAt colors' j = setHSL hue 1 0.5 /\
            hue = hueBase + (random n (Nat.div j stride) - 0.5) * hueRange /\
            hueBase - hueRange / 2 <= hue < hueBase + hueRange / 2) /\
      (forall j : nat,
          (j < count)%nat -> Nat.modulo j stride <> 0%nat ->
          rgbAt colors' j = rgbAt colors j) /\
      (hues GESTURES.NONE = (0.5, 0.1) /\ hues GESTURES.FIST = (0.08, 0.1) /\
       hues GESTURES.OPEN = (0.4, 0.15) /\ hues GESTURES.PEACE = (0.6, 0.2) /\
       hues GESTURES.METAL = (0.95, 0.1)) /\
      (forall innerWidth : nat,
          (particleCount (initialState innerWidth) = 2000%nat /\
           touched (particleCount (initialState innerWidth)) = 334%nat) \/
          (particleCount (initialState innerWidth) = 4000%nat /\
           touched (particleCount (initialState innerWidth)) = 308%nat)).
Proof.
  intros setHSL random s colors n Hlen Hrandom count stride hueBase hueRange.
  destruct (colourFrames_untouched setHSL random s colors n Hlen)
    as (colors1 & Hrun1 & Hlen1 & Hkeep1).
  destruct (updateParticleColors_spec setHSL (random n) s colors1)
    as (colors2 & Hrun2 & Hlen2 & Hcol2); [congruence |].
  exists colors2. cbn [colourFrames]. rewrite Hrun1.
  split; [exact Hrun2 |]. split; [congruence |]. split.
  { intros j Hj Hmod. destruct (Hcol2 j Hj) as [Hnew _].
    eexists. split; [apply Hnew; exact Hmod |].
    split; [reflexivity |]. apply hue_in_range. apply Hrandom. }
  split.
  { intros j Hj Hmod. destruct (Hcol2 j Hj) as [_ Hold].
    rewrite Hold by exact Hmod. now apply Hkeep1. }
  split; [repeat split |].
  intros innerWidth. cbn [initialState particleCount].
  destruct (Nat.ltb innerWidth 768); [left | right];
    (split; [reflexivity | vm_compute; reflexivity]).
Qed.

Lemma colour_pass_resamples_strided_subset_witness :
  exists colors' : list Q,
    colourFrames plainHSL (fun _ _ => 0.5) fistState 3
      (initialColors plainHSL (fun _ => 0.5) 2000) = Some colors' /\
    rgbAt colors' 1 = rgbAt (initialColors plainHSL (fun _ => 0.5) 2000) 1.
Proof.
  destruct (colour_pass_resamples_strided_subset plainHSL (fun _ _ => 0.5)
              fistState (initialColors plainHSL (fun _ => 0.5) 2000) 2)
    as (colors' & Hrun & _ & _ & Hkeep & _).
  - vm_compute. reflexivity.
  - intros f k. split; [discriminate | reflexivity].
  - exists colors'. split; [exact Hrun |].
    apply Hkeep; [cbn; lia | vm_compute; discriminate].
Defined.

(** C5 as the specification words it fails: the particles do not all come
    to the new palette.  Of the 2000 particles of a narrow window, created
    with hue 0.55, particle 1 never gets a hue of the FIST palette (0.03 to
    0.13), whatever the number of frames: the stride is 6 and every pass
    visits the particles 0, 6, 12, ... only. *)
Lemma colour_convergence_counterexample :
  ~ (exists (n : nat) (colors' : list Q) (hue : Q),
        colourFrames plainHSL (fun _ _ => 0.5) fistState n
          (initialColors plainHSL (fun _ => 0.5) 2000) = Some colors' /\
        rgbAt colors' 1 = plainHSL hue 1 0.5 /\
        0.08 - 0.1 / 2 <= hue <= 0.08 + 0.1 / 2).
Proof.
  intros (n & colors' & hue & Hrun & Hcol & Hlo & Hhi).
  destruct (colourFrames_untouched plainHSL (fun _ _ => 0.5) fistState
              (initialColors plainHSL (fun _ => 0.5) 2000) n)
    as (colors1 & Hrun1 & _ & Hkeep); [vm_compute; reflexivity |].
  rewrite Hrun in Hrun1. injection Hrun1 as <-.
  rewrite Hkeep in Hcol; [| cbn; lia | vm_compute; discriminate].
  vm_compute in Hcol. injection Hcol as <-.
  apply Qle_bool_iff in Hhi. vm_compute in Hhi. discriminate Hhi.
Qed.

(** ** The vertex shader *)

Section ShaderFacts.

Import Shader.
Local Open Scope R_scope.

Lemma pow_total_glsl : glsl_pow pow_total.
Proof.
  split; intros; unfold pow_total.
  - destruct (Rlt_dec 0 x); [reflexivity | contradiction].
  - destruct (Rlt_dec 0 0); [lra | reflexivity].
Qed.

(** On a base that is not negative, a GLSL [pow] with exponent 3 is the
    cube. *)
Lemma glsl_pow_cube (pow : R -> R -> R) (x : R) :
  glsl_pow pow -> 0 <= x -> pow x 3 = x ^ 3.
Proof.
  intros [Hpos Hzero] [Hx | <-].
  - rewrite Hpos by assumption.
    replace 3 with (INR 3) at 1 by (cbn; lra).
    now apply Rpower_pow.
  - rewrite Hzero by lra. lra.
Qed.

Lemma step_ge (edge x : R) : 0.5 < step edge x <-> edge <= x.
Proof.
  unfold step. destruct (Rlt_dec x edge); split; intros; lra.
Qed.

End ShaderFacts.

Section ShaderClaims.

Import Shader.
Local Open Scope R_scope.

(** C8.  Under FIST (uniform 1) the ring test [step(0.3, r3) > 0.5] holds
    exactly when [r3 >= 0.3]: 0.29 is planet, 0.31 and the boundary 0.3 are
    ring.  A ring particle targets the flattened circle of radius
    [120 + r0 * 80] around the hand point [H], a radius in 120..200 for
    [r0] in [0, 1); a planet particle targets a point of the sphere of
    radius [r0 * 60], below 60, around [H], turning with time. *)
Theorem fist_ring_and_planet :
  forall (pow : R -> R -> R) (position : vec3) (random : vec4)
         (time : R) (handPos : vec3),
    let L := main pow position random time handPos 1 in
    let H := scale3 handPos 500 in
    let t := time * 2 in
    let r0 := r_x random in
    let r3 := r_w random in
    let ringAngle := r0 * 6.28318 + t * 0.3 in
    let ringRadius := 120 + r0 * 80 in
    let planetR := r0 * 60 in
    let theta := r3 * 3.14159 in
    let phi := r0 * 6.28318 in
    (0.5 < step 0.3 r3 <-> 0.3 <= r3) /\
    step 0.3 0.29 = 0 /\ step 0.3 0.31 = 1 /\ step 0.3 0.3 = 1 /\
    (0.3 <= r3 ->
     target L =
     mkVec3 (v_x H + cos ringAngle * ringRadius)
            (v_y H + sin ringAngle * ringRadius * 0.2)
            (v_z H + sin ringAngle * ringRadius * 0.5)) /\
    (r3 < 0.3 ->
     target L =
     mkVec3 (v_x H + planetR * sin theta * cos (phi + t * 0.5))
            (v_y H + planetR * sin theta * sin (phi + t * 0.5))
            (v_z H + planetR * cos theta) /\
     (v_x (target L) - v_x H) ^ 2 + (v_y (target L) - v_y H) ^ 2
     + (v_z (target L) - v_z H) ^ 2 = planetR ^ 2) /\
    (0 <= r0 < 1 ->
     120 <= ringRadius < 200 /\ 0 <= planetR < 60 /\
     planetR ^ 2 <= 60 ^ 2) /\
    blend L = 0.95.
Proof.
  intros pow position random time handPos L H t r0 r3 ringAngle ringRadius
    planetR theta phi.
  split; [apply step_ge |].
  split; [unfold step; destruct (Rlt_dec 0.29 0.3); lra |].
  split; [unfold step; destruct (Rlt_dec 0.31 0.3); lra |].
  split; [unfold step; destruct (Rlt_dec 0.3 0.3); lra |].
  split.
  { intros Hring. unfold L, main. cbn [Z.eqb Pos.eqb target].
    fold r3. destruct (Rlt_dec 0.5 (step 0.3 r3)) as [_ | Hno].
    - reflexivity.
    - exfalso. apply Hno. now apply step_ge. }
  split.
  { intros Hplanet.
    assert (Ht : target L =
                 mkVec3 (v_x H + planetR * sin theta * cos (phi + t * 0.5))
                        (v_y H + planetR * sin theta * sin (phi + t * 0.5))
                        (v_z H + planetR * cos theta)).
    { unfold L, main. cbn [Z.eqb Pos.eqb target].
      fold r3. destruct (Rlt_dec 0.5 (step 0.3 r3)) as [Hyes | _].
      - apply step_ge in Hyes. lra.
      - reflexivity. }
    split; [exact Ht |]. rewrite Ht. cbn [v_x v_y v_z].
    pose proof (sin2_cos2 theta) as E1.
    pose proof (sin2_cos2 (phi + t * 0.5)) as E2.
    unfold Rsqr in E1, E2.
    set (st := sin theta) in *. set (ct := cos theta) in *.
    set (sp := sin (phi + t * 0.5)) in *.
    set (cp := cos (phi + t * 0.5)) in *.
    replace ((v_x H + planetR * st * cp - v_x H) ^ 2
             + (v_y H + planetR * st * sp - v_y H) ^ 2
             + (v_z H + planetR * ct - v_z H) ^ 2)
      with (planetR ^ 2 * (st * st * (sp * sp + cp * cp) + ct * ct))
      by ring.
    rewrite E2. replace (st * st * 1 + ct * ct) with (st * st + ct * ct)
      by ring.
    rewrite E1. ring. }
  split.
  { intros [Hlo Hhi]. unfold ringRadius, planetR. repeat split; try lra.
    nra. }
  unfold L, main. cbn [Z.eqb Pos.eqb blend]. reflexivity.
Qed.

Lemma fist_ring_and_planet_witness :
  target (main pow_total (mkVec3 0 0 0) (mkVec4 (1 / 2) 0 0 0.31) 0
            (mkVec3 0 0 0) 1) =
  mkVec3 (0 * 500 + cos (1 / 2 * 6.28318 + 0 * 2 * 0.3) * (120 + 1 / 2 * 80))
         (0 * 500
          + sin (1 / 2 * 6.28318 + 0 * 2 * 0.3) * (120 + 1 / 2 * 80) * 0.2)
         (0 * 500
          + sin (1 / 2 * 6.28318 + 0 * 2 * 0.3) * (120 + 1 / 2 * 80) * 0.5).
Proof.
  destruct (fist_ring_and_planet pow_total (mkVec3 0 0 0)
              (mkVec4 (1 / 2) 0 0 0.31) 0 (mkVec3 0 0 0))
    as (_ & _ & _ & _ & Hring & _).
  apply Hring. cbn. lra.
Defined.

(** The third component of the turbulence does not have the argument of
    the first two: at time 0.5 the particle with [r0 = 0] gets the offset
    [2 sin 0.5] along z, not [2 sin 1]. *)
Lemma turbulence_z_runs_at_half_speed :
  v_z (pos (main pow_total (mkVec3 0 0 0) (mkVec4 0 0 0 0) (1 / 2)
              (mkVec3 0 0 0) 0)) <>
  v_z (mix3 (mkVec3 0 0 0)
         (target (main pow_total (mkVec3 0 0 0) (mkVec4 0 0 0 0) (1 / 2)
                    (mkVec3 0 0 0) 0))
         (blend (main pow_total (mkVec3 0 0 0) (mkVec4 0 0 0 0) (1 / 2)
                   (mkVec3 0 0 0) 0) * 0.1))
  + sin (1 / 2 * 2 + 0 * 10) * 2.
Proof.
  unfold main. cbn [Z.eqb pos target blend add3 mix3 v_x v_y v_z r_x].
  intros Heq. apply Rplus_eq_reg_l in Heq.
  replace (1 / 2 * 2 * 0.5 + 0 * 10) with (1 / 2) in Heq by lra.
  replace (1 / 2 * 2 + 0 * 10) with 1 in Heq by lra.
  pose proof PI2_1 as Hpi.
  assert (Hlt : sin (1 / 2) < sin 1)
    by (apply sin_increasing_1; lra).
  lra.
Qed.

(** C4, as amended.  Under METAL (uniform 4), with [theta = r0 * 6.28318],
    [s = 5 * (1 + sin(t * 8) * 0.1)] and [H] the hand point, the heart's y
    value is subtracted: [target.y = H.y - heartY * s + 20];
    [target.x = H.x + 16 sin^3 theta * s] wherever [sin theta >= 0], where
    GLSL defines [pow]; [target.z = H.z + sin(theta * 3 + t) * 30]; the
    blend is 0.94. *)
Theorem metal_heart_target :
  forall (pow : R -> R -> R) (position : vec3) (random : vec4)
         (time : R) (handPos : vec3),
    glsl_pow pow ->
    let L := main pow position random time handPos 4 in
    let H := scale3 handPos 500 in
    let t := time * 2 in
    let theta := r_x random * 6.28318 in
    let s := 5 * (1 + sin (t * 8) * 0.1) in
    let heartY := 13 * cos theta - 5 * cos (2 * theta)
                  - 2 * cos (3 * theta) - cos (4 * theta) in
    v_y (target L) = v_y H - heartY * s + 20 /\
    (0 <= sin theta -> v_x (target L) = v_x H + 16 * sin theta ^ 3 * s) /\
    v_z (target L) = v_z H + sin (theta * 3 + t) * 30 /\
    blend L = 0.94.
Proof.
  intros pow position random time handPos Hpow L H t theta s heartY.
  unfold L, main. cbn [Z.eqb Pos.eqb target blend v_x v_y v_z].
  repeat split.
  intros Hsin. fold theta. rewrite (glsl_pow_cube pow (sin theta) Hpow Hsin).
  reflexivity.
Qed.

Lemma metal_heart_target_witness :
  v_y (target (main pow_total (mkVec3 0 0 0) (mkVec4 0 0 0 0) 0
                 (mkVec3 0 0 0) 4)) = -5.
Proof.
  destruct (metal_heart_target pow_total (mkVec3 0 0 0) (mkVec4 0 0 0 0) 0
              (mkVec3 0 0 0) pow_total_glsl)
    as (Hy & _).
  rewrite Hy. cbn [scale3 v_y r_x].
  rewrite !Rmult_0_l, !Rmult_0_r, cos_0, sin_0. lra.
Defined.

(** C4 as the specification words it fails: for [r0 = 0] at time 0 with
    the hand at the origin the code puts the target at [y = -5]; adding the
    heart's y value would put it at [y = 45]. *)
Lemma metal_heart_added_counterexample :
  v_y (target (main pow_total (mkVec3 0 0 0) (mkVec4 0 0 0 0) 0
                 (mkVec3 0 0 0) 4)) <>
  0 * 500
  + (13 * cos (0 * (2 * PI)) - 5 * cos (2 * (0 * (2 * PI)))
     - 2 * cos (3 * (0 * (2 * PI))) - cos (4 * (0 * (2 * PI))))
    * (5 * (1 + 0.1 * sin (8 * (0 * 2))))
  + 20.
Proof.
  unfold main. cbn [Z.eqb Pos.eqb target scale3 v_y r_x].
  rewrite !Rmult_0_l, !Rmult_0_r, cos_0, sin_0. lra.
Qed.

End ShaderClaims.

(** * Further properties of the code *)

(** ** Hands with too few landmarks *)

Lemma isFingerExtended_cases (landmarks : list Landmark) (tipIdx baseIdx : nat)
  (w : World) :
  (exists b : bool, isFingerExtended landmarks tipIdx baseIdx w = (Normal b, w))
  \/ isFingerExtended landmarks tipIdx baseIdx w = (Throw TypeError, w).
Proof.
  unfold isFingerExtended, bind, member, ret, throw.
  destruct (nth_error landmarks tipIdx), (nth_error landmarks baseIdx);
    eauto.
Qed.

Lemma isThumbExtended_cases (landmarks : list Landmark) (w : World) :
  (exists b : bool, isThumbExtended landmarks w = (Normal b, w))
  \/ isThumbExtended landmarks w = (Throw TypeError, w).
Proof.
  unfold isThumbExtended, bind, member, ret, throw.
  destruct (nth_error landmarks 4), (nth_error landmarks 2); eauto.
Qed.

Lemma fingerStates_cases (landmarks : list Landmark) (w : World) :
  (exists f : Fingers, fingerStates landmarks w = (Normal f, w))
  \/ fingerStates landmarks w = (Throw TypeError, w).
Proof.
  unfold fingerStates, bind.
  destruct (isThumbExtended_cases landmarks w) as [[t ->] | ->]; [| auto].
  destruct (isFingerExtended_cases landmarks 8 5 w) as [[i ->] | ->]; [| auto].
  destruct (isFingerExtended_cases landmarks 12 9 w) as [[m ->] | ->];
    [| auto].
  destruct (isFingerExtended_cases landmarks 16 13 w) as [[r ->] | ->];
    [| auto].
  destruct (isFingerExtended_cases landmarks 20 17 w) as [[p ->] | ->];
    [| auto].
  left. eexists. reflexivity.
Qed.

Lemma fingerStates_short (landmarks : list Landmark) (w : World) :
  (length landmarks <= 20)%nat ->
  fingerStates landmarks w = (Throw TypeError, w).
Proof.
  intros Hlen. unfold fingerStates, bind.
  destruct (isThumbExtended_cases landmarks w) as [[t ->] | ->]; [| auto].
  destruct (isFingerExtended_cases landmarks 8 5 w) as [[i ->] | ->]; [| auto].
  destruct (isFingerExtended_cases landmarks 12 9 w) as [[m ->] | ->];
    [| auto].
  destruct (isFingerExtended_cases landmarks 16 13 w) as [[r ->] | ->];
    [| auto].
  unfold isFingerExtended, bind, member, throw.
  rewrite (proj2 (nth_error_None landmarks 20)) by lia. reflexivity.
Qed.

Lemma detectGesture_short (landmarks : list Landmark) (w : World) :
  (length landmarks <= 20)%nat ->
  detectGesture landmarks w = (Throw TypeError, w).
Proof.
  intros Hlen. unfold detectGesture, bind.
  rewrite fingerStates_short by assumption. reflexivity.
Qed.

Lemma onHandResults_short (landmarks : list Landmark)
  (rest : list (list Landmark)) (w : World) :
  (length landmarks < 10)%nat ->
  onHandResults (mkResults (Some (landmarks :: rest))) w = (Throw TypeError, w).
Proof.
  intros Hlen. unfold onHandResults. cbn [multiHandLandmarks].
  rewrite (proj2 (nth_error_None landmarks 9)) by lia.
  unfold bind, member, ret, throw.
  destruct (nth_error landmarks 0); reflexivity.
Qed.

(** X1.  A frame whose hand has fewer landmarks than the code indexes makes
    the callback throw a [TypeError].  With fewer than 10 landmarks nothing
    has been written; without an override and with 10 to 20 landmarks the
    anchor of that hand has already been written when the classifier throws,
    and everything else, the gesture included, is as before.  Without an
    override the callback completes exactly for hands of at least 21
    landmarks. *)
Theorem short_hand_frame :
  forall (landmarks : list Landmark) (rest : list (list Landmark)) (w : World),
    ((length landmarks < 10)%nat ->
     onHandResults (mkResults (Some (landmarks :: rest))) w
     = (Throw TypeError, w)) /\
    ((10 <= length landmarks <= 20)%nat -> isForcedShape (state w) = false ->
     onHandResults (mkResults (Some (landmarks :: rest))) w
     = (Throw TypeError,
        withState (placeHand (anchorOf (landmarkAt landmarks 0)
                                       (landmarkAt landmarks 9))) w)) /\
    (isForcedShape (state w) = false ->
     (fst (onHandResults (mkResults (Some (landmarks :: rest))) w) = Normal tt
      <-> (20 < length landmarks)%nat)).
Proof.
  intros landmarks rest w. split; [apply onHandResults_short |]. split.
  - intros Hlen Hfree. rewrite onHandResults_hand by lia. rewrite Hfree.
    unfold bind. rewrite detectGesture_short by lia. reflexivity.
  - intros Hfree. split.
    + intros Hok.
      destruct (Nat.lt_ge_cases (length landmarks) 10) as [Hlt | Hge].
      * rewrite onHandResults_short in Hok by assumption. discriminate Hok.
      * destruct (Nat.lt_ge_cases 20 (length landmarks)) as [H21 | H20];
          [exact H21 |].
        rewrite onHandResults_hand in Hok by lia. rewrite Hfree in Hok.
        unfold bind in Hok. rewrite detectGesture_short in Hok by lia.
        discriminate Hok.
    + intros Hlen. rewrite onHandResults_hand by lia. rewrite Hfree.
      unfold bind. rewrite detectGesture_run by assumption. reflexivity.
Qed.

Lemma short_hand_frame_witness :
  onHandResults (mkResults (Some [firstn 12 offCentreHand]))
    (initialWorld 1024)
  = (Throw TypeError,
     withState (placeHand (anchorOf (landmarkAt (firstn 12 offCentreHand) 0)
                                    (landmarkAt (firstn 12 offCentreHand) 9)))
       (initialWorld 1024)).
Proof.
  destruct (short_hand_frame (firstn 12 offCentreHand) [] (initialWorld 1024))
    as (_ & Hmid & _).
  apply Hmid.
  - cbn. lia.
  - reflexivity.
Defined.

(** ** The same frame twice *)

Lemma gestureTable_idem (f : Fingers) (previous : string) :
  gestureTable f (gestureTable f previous) = gestureTable f previous.
Proof.
  unfold gestureTable.
  destruct (index f), (middle f), (ring f), (pinky f); reflexivity.
Qed.

(** X2.  The tracker callback is idempotent: delivering a frame a second
    time leaves the world as the first delivery left it and completes the
    same way, whether the frame has no hand, a full hand or a short one, and
    whether or not an override is active. *)
Theorem onHandResults_idempotent :
  forall (results : Results) (w : World),
    onHandResults results (after (onHandResults results) w)
    = (fst (onHandResults results w), after (onHandResults results) w).
Proof.
  intros [[[| landmarks rest] |]] w; unfold after.
  - rewrite (onHandResults_noHand _ w) by (right; reflexivity). cbn [fst snd].
    rewrite onHandResults_noHand by (right; reflexivity).
    destruct (isForcedShape (state w)) eqn:E; cbn; rewrite ?E; reflexivity.
  - destruct (Nat.lt_ge_cases (length landmarks) 10) as [Hlt | Hge].
    { rewrite (onHandResults_short _ _ w) by assumption. cbn [fst snd].
      now apply onHandResults_short. }
    rewrite (onHandResults_hand _ _ w) by lia.
    destruct (isForcedShape (state w)) eqn:E.
    { cbn [fst snd]. rewrite onHandResults_hand by lia. cbn. rewrite E.
      reflexivity. }
    unfold bind.
    destruct (Nat.lt_ge_cases 20 (length landmarks)) as [H21 | H20].
    + rewrite detectGesture_run by assumption. cbn [fst snd].
      rewrite onHandResults_hand by lia. cbn. rewrite E.
      unfold bind. rewrite detectGesture_run by assumption. cbn.
      rewrite gestureTable_idem. reflexivity.
    + rewrite detectGesture_short by assumption. cbn [fst snd].
      rewrite onHandResults_hand by lia. cbn. rewrite E.
      unfold bind. rewrite detectGesture_short by assumption. reflexivity.
  - rewrite (onHandResults_noHand _ w) by (left; reflexivity). cbn [fst snd].
    rewrite onHandResults_noHand by (left; reflexivity).
    destruct (isForcedShape (state w)) eqn:E; cbn; rewrite ?E; reflexivity.
Qed.

(** ** The gestures a run can reach *)

Lemma gestureTable_value (f : Fingers) (previous : string) :
  isGestureValue (gestureTable f previous) \/
  gestureTable f previous = previous.
Proof.
  unfold gestureTable, isGestureValue.
  destruct (index f), (middle f), (ring f), (pinky f); auto 10.
Qed.

Lemma onHandResults_gesture (results : Results) (w : World) :
  isGestureValue (currentGesture (state (after (onHandResults results) w))) \/
  currentGesture (state (after (onHandResults results) w))
  = currentGesture (state w).
Proof.
  unfold after. destruct results as [[[| landmarks rest] |]].
  - rewrite onHandResults_noHand by (right; reflexivity).
    destruct (isForcedShape (state w)); cbn; [auto | left; left; reflexivity].
  - destruct (Nat.lt_ge_cases (length landmarks) 10) as [Hlt | Hge].
    { rewrite onHandResults_short by assumption. auto. }
    rewrite onHandResults_hand by lia.
    destruct (isForcedShape (state w)); [cbn; auto |].
    unfold bind.
    destruct (Nat.lt_ge_cases 20 (length landmarks)) as [H21 | H20].
    + rewrite detectGesture_run by assumption. cbn.
      apply gestureTable_value.
    + rewrite detectGesture_short by assumption. cbn. auto.
  - rewrite onHandResults_noHand by (left; reflexivity).
    destruct (isForcedShape (state w)); cbn; [auto | left; left; reflexivity].
Qed.

Lemma elapse_gesture (ms : N) (w : World) :
  overrideInvariant w ->
  currentGesture (state (elapse ms w)) = GESTURES.NONE \/
  currentGesture (state (elapse ms w)) = currentGesture (state w).
Proof.
  intros [[_ Hq] | (h & d & _ & _ & Hq & _)].
  - rewrite elapse_idle by assumption. auto.
  - destruct (N.leb_spec d (clock w + ms)).
    + rewrite (elapse_fire ms w h d) by assumption. auto.
    + rewrite (elapse_pending ms w h d revertForcedShape) by assumption. auto.
Qed.

(** X3.  Whatever frames arrive and however time passes, the gesture kept
    in [state.currentGesture] is one of the five values of [GESTURES] or a
    shape some [forceShape] call of the run passed in; without forced shapes
    other than the five, it is one of the five in every reachable world. *)
Theorem reachable_gestures :
  forall (innerWidth : nat) (evs : list event),
    (isGestureValue
       (currentGesture (state (run evs (initialWorld innerWidth)))) \/
     In (currentGesture (state (run evs (initialWorld innerWidth))))
        (forcedShapes evs)) /\
    ((forall shape : string, In shape (forcedShapes evs) ->
                             isGestureValue shape) ->
     isGestureValue
       (currentGesture (state (run evs (initialWorld innerWidth))))).
Proof.
  intros innerWidth evs.
  assert (Hgen : forall (evs : list event) (w : World) (seen : list string),
             overrideInvariant w ->
             isGestureValue (currentGesture (state w)) \/
             In (currentGesture (state w)) seen ->
             isGestureValue (currentGesture (state (run evs w))) \/
             In (currentGesture (state (run evs w)))
                (seen ++ forcedShapes evs)%list).
  { clear evs. induction evs as [| e evs IH]; intros w seen Hinv Hw.
    - cbn. rewrite app_nil_r. exact Hw.
    - rewrite run_cons.
      pose proof (overrideInvariant_step w e Hinv) as Hinv'.
      destruct e as [results | shape | ms]; cbn [forcedShapes].
      + apply IH; [exact Hinv' |]. cbn [step].
        destruct (onHandResults_gesture results w) as [Hv | Heq];
          [left; exact Hv | unfold after in Heq; rewrite Heq; exact Hw].
      + replace (seen ++ shape :: forcedShapes evs)%list
          with ((seen ++ [shape]) ++ forcedShapes evs)%list
          by (rewrite <- app_assoc; reflexivity).
        apply IH; [exact Hinv' |]. right. cbn [step].
        rewrite forceShape_run. cbn. apply in_or_app. right. left.
        reflexivity.
      + apply IH; [exact Hinv' |]. cbn [step].
        destruct (elapse_gesture ms w Hinv) as [Hn | Heq];
          [left; left; exact Hn | rewrite Heq; exact Hw]. }
  assert (H : isGestureValue
                (currentGesture (state (run evs (initialWorld innerWidth)))) \/
              In (currentGesture (state (run evs (initialWorld innerWidth))))
                 (forcedShapes evs)).
  { apply (Hgen evs (initialWorld innerWidth) ([] : list string)).
    - apply overrideInvariant_initial.
    - left. left. reflexivity. }
  split; [exact H |].
  intros Hshapes. destruct H as [Hv | Hin]; [exact Hv | now apply Hshapes].
Qed.

Lemma reachable_gestures_witness :
  isGestureValue
    (currentGesture
       (state (run [openHandFrame; Force "peace"; Elapse 100; openHandFrame]
                 (initialWorld 1024)))).
Proof.
  apply (reachable_gestures 1024
           [openHandFrame; Force "peace"; Elapse 100; openHandFrame]).
  cbn. intros shape [<- | []]. right. right. right. left. reflexivity.
Defined.

(** ** An override cannot outlive its five seconds *)

Lemma unforced_override_pending (evs : list event) :
  forall w : World,
    overrideInvariant w -> unforced evs = true ->
    isForcedShape (state (run evs w)) = true ->
    exists (h : positive) (d : N),
      timers w = [mkTimer h d revertForcedShape] /\
      (clock w + elapsed evs < d)%N.
Proof.
  induction evs as [| e evs IH]; intros w Hinv Hun Hforced.
  - cbn in Hforced. destruct Hinv as [[Hf _] | (h & d & _ & _ & Hq & Hd)];
      [congruence |].
    exists h, d. split; [exact Hq | cbn; lia].
  - rewrite run_cons in Hforced.
    pose proof (overrideInvariant_step w e Hinv) as Hinv'.
    destruct e as [results | shape | ms]; cbn in Hun; [| discriminate |].
    + destruct (IH _ Hinv' Hun Hforced) as (h & d & Hq & Hd).
      destruct (onHandResults_frame results w) as (Ht & Hc & _).
      unfold after in Ht, Hc. cbn [step] in Hq, Hd.
      exists h, d. rewrite <- Ht, <- Hc. split; [exact Hq | exact Hd].
    + destruct (IH _ Hinv' Hun Hforced) as (h & d & Hq & Hd).
      cbn [step] in Hq, Hd.
      destruct Hinv as [[_ Hq0] | (h0 & d0 & _ & _ & Hq0 & _)].
      * rewrite elapse_idle in Hq by assumption. discriminate Hq.
      * destruct (N.leb_spec d0 (clock w + ms)).
        -- rewrite (elapse_fire ms w h0 d0) in Hq by assumption.
           discriminate Hq.
        -- rewrite (elapse_pending ms w h0 d0 revertForcedShape) in Hq, Hd
             by assumption.
           cbn in Hq, Hd. injection Hq as <- <-.
           exists h0, d0. split; [exact Hq0 | cbn; lia].
Qed.

(** X4.  From every reachable world, once 5000 ms have passed without a
    new [forceShape], no override is active and no timer is pending, whatever
    frames arrived meanwhile: an override never sticks. *)
Theorem override_never_sticks :
  forall (innerWidth : nat) (history evs : list event),
    unforced evs = true -> (5000 <= elapsed evs)%N ->
    isForcedShape
      (state (run evs (run history (initialWorld innerWidth)))) = false /\
    timers (run evs (run history (initialWorld innerWidth))) = [].
Proof.
  intros innerWidth history evs Hun Hlong.
  set (w := run history (initialWorld innerWidth)).
  assert (Hinv : overrideInvariant w)
    by apply overrideInvariant_run, overrideInvariant_initial.
  assert (Hoff : isForcedShape (state (run evs w)) = false).
  { destruct (isForcedShape (state (run evs w))) eqn:E; [| reflexivity].
    destruct (unforced_override_pending evs w Hinv Hun E) as (h & d & Hq & Hd).
    destruct Hinv as [[_ Hq0] | (h0 & d0 & _ & _ & Hq0 & Hd0)];
      [congruence |].
    rewrite Hq0 in Hq. injection Hq as <- <-. lia. }
  split; [exact Hoff |].
  destruct (overrideInvariant_run evs w Hinv) as [[_ Hq] | (h & d & Hf & _)];
    [exact Hq | congruence].
Qed.

Lemma override_never_sticks_witness :
  isForcedShape
    (state (run [openHandFrame; Elapse 2500; openHandFrame; Elapse 2500]
              (run [Force "fist"; Elapse 10; Force "peace"]
                 (initialWorld 1024)))) = false.
Proof.
  apply (override_never_sticks 1024 [Force "fist"; Elapse 10; Force "peace"]
           [openHandFrame; Elapse 2500; openHandFrame; Elapse 2500]).
  - reflexivity.
  - discriminate.
Defined.

(** ** The range of the anchor *)

(** X6.  When wrist and middle-finger base lie inside the image (x and y
    between 0 and 1), the anchor the callback writes lies in the cube
    [-1, 1]^3; a hand at the centre of the image, at depth 0, gives the
    origin.  Only z is clamped: x and y follow the landmarks out of the
    cube. *)
Theorem anchor_in_cube :
  forall (landmarks : list Landmark) (rest : list (list Landmark)) (w : World),
    (9 < length landmarks)%nat ->
    let wrist := landmarkAt landmarks 0 in
    let middleBase := landmarkAt landmarks 9 in
    let anchor :=
      handPosition
        (state (after (onHandResults (mkResults (Some (landmarks :: rest)))) w))
    in
    (0 <= lx wrist <= 1 -> 0 <= lx middleBase <= 1 -> -1 <= vx anchor <= 1) /\
    (0 <= ly wrist <= 1 -> 0 <= ly middleBase <= 1 -> -1 <= vy anchor <= 1) /\
    -1 <= vz anchor <= 1 /\
    (1 < lx wrist -> 1 < lx middleBase -> vx anchor < -1) /\
    (lx wrist + lx middleBase == 1 -> vx anchor == 0) /\
    (ly wrist + ly middleBase == 1 -> vy anchor == 0).
Proof.
  intros landmarks rest w Hlen wrist middleBase anchor.
  unfold anchor. rewrite onHandResults_handPosition by assumption.
  fold wrist middleBase. unfold anchorOf. cbn [vx vy vz].
  unfold Qdiv. cbn [Qinv Qnum Qden].
  split; [intros [? ?] [? ?]; split; lra |].
  split; [intros [? ?] [? ?]; split; lra |].
  split; [apply clamp_range |].
  split; [intros; lra |].
  split; intros E.
  - setoid_replace ((lx wrist + lx middleBase) * (1 # 2)) with (1 # 2)
      by (rewrite E; reflexivity).
    reflexivity.
  - setoid_replace ((ly wrist + ly middleBase) * (1 # 2)) with (1 # 2)
      by (rewrite E; reflexivity).
    reflexivity.
Qed.

Lemma anchor_in_cube_witness :
  -1 <= vx (handPosition
              (state (after (onHandResults
                               (mkResults (Some [offCentreHand])))
                        (initialWorld 1024)))) <= 1.
Proof.
  destruct (anchor_in_cube offCentreHand [] (initialWorld 1024))
    as (Hx & _).
  - cbn. lia.
  - apply Hx; split; discriminate.
Defined.

(** ** Creating the particles *)

Lemma flat_map_length_const {A B : Type} (f : A -> list B) (k : nat)
  (l : list A) :
  (forall a : A, length (f a) = k) ->
  length (flat_map f l) = (length l * k)%nat.
Proof.
  intros Hf. induction l as [| a l IH]; cbn; [reflexivity |].
  rewrite length_app, Hf, IH. reflexivity.
Qed.

Lemma initialColors_length (setHSL : Q -> Q -> Q -> Q * Q * Q)
  (random : nat -> Q) (count : nat) :
  length (initialColors setHSL random count) = (count * 3)%nat.
Proof.
  unfold initialColors.
  rewrite (flat_map_length_const _ 3), length_seq; [reflexivity |].
  intros i. destruct (setHSL _ 1 0.5) as [[r g] b]. reflexivity.
Qed.

Lemma stored_between (store : Q -> Q) (lo hi x : Q) :
  (forall a b : Q, a <= b -> store a <= store b) ->
  store lo == lo -> store hi == hi ->
  lo <= x <= hi -> lo <= store x <= hi.
Proof.
  intros Hmono Hlo Hhi [H1 H2]. split.
  - rewrite <- Hlo. now apply Hmono.
  - rewrite <- Hhi. now apply Hmono.
Qed.

(** X8.  A resize sets the particle count to 2000 below a width of 768 and
    to 4000 from there on, and creates arrays that fit it: 3 numbers a
    particle for positions and colours, 1 for sizes, 4 for the random
    attribute.  With [Math.random()] in [0, 1) and arrays that round as
    floats do, every stored position coordinate lies in [-500, 500], every
    size in [1, 4] and every random attribute in [0, 1], the upper ends
    included.  Gesture, anchor and override are not touched, and the colour
    pass runs on the new colour array for any number of frames. *)
Theorem resize_recreates_particles :
  forall (store : Q -> Q) (setHSL : Q -> Q -> Q -> Q * Q * Q)
         (random : nat -> Q) (innerWidth : nat) (s : State),
    roundsToFloat store ->
    (forall k : nat, 0 <= random k < 1) ->
    let s' := fst (onWindowResize store setHSL random innerWidth s) in
    let a := snd (onWindowResize store setHSL random innerWidth s) in
    let n := particleCount s' in
    ((innerWidth < 768)%nat -> n = 2000%nat) /\
    ((768 <= innerWidth)%nat -> n = 4000%nat) /\
    length (position_attr a) = (n * 3)%nat /\
    length (color_attr a) = (n * 3)%nat /\
    length (size_attr a) = n /\
    length (random_attr a) = (n * 4)%nat /\
    (forall x : Q, In x (position_attr a) -> -500 <= x <= 500) /\
    (forall x : Q, In x (size_attr a) -> 1 <= x <= 4) /\
    (forall x : Q, In x (random_attr a) -> 0 <= x <= 1) /\
    (currentGesture s' = currentGesture s /\
     handPosition s' = handPosition s /\
     isForcedShape s' = isForcedShape s) /\
    (forall (frames : nat) (random' : nat -> nat -> Q),
        exists colors' : list Q,
          colourFrames setHSL random' s' frames (color_attr a) = Some colors').
Proof.
  intros store setHSL random innerWidth s
    (Hmono & Hm500 & H0 & H1 & H4 & H500) Hrandom s' a n.
  subst a n s'. unfold onWindowResize. cbn [fst snd].
  unfold createParticleSystem.
  cbn [position_attr color_attr size_attr random_attr particleCount
       set_particleCount currentGesture handPosition isForcedShape].
  set (count := if Nat.ltb innerWidth 768 then 2000%nat else 4000%nat).
  split.
  { intros Hw. unfold count.
    destruct (Nat.ltb_spec innerWidth 768); [reflexivity | lia]. }
  split.
  { intros Hw. unfold count.
    destruct (Nat.ltb_spec innerWidth 768); [lia | reflexivity]. }
  split.
  { rewrite (flat_map_length_const _ 3), length_seq; reflexivity. }
  split; [rewrite length_map; apply initialColors_length |].
  split; [rewrite length_map, length_seq; reflexivity |].
  split.
  { rewrite (flat_map_length_const _ 4), length_seq; reflexivity. }
  split.
  { intros x Hin. apply in_flat_map in Hin. destruct Hin as (i & _ & Hin).
    cbn in Hin.
    destruct Hin as [<- | [<- | [<- | []]]];
      apply (stored_between store (-500) 500); auto;
      match goal with
      | |- context [random ?k] => destruct (Hrandom k); split; lra
      end. }
  split.
  { intros x Hin. apply in_map_iff in Hin. destruct Hin as (i & <- & _).
    apply (stored_between store 1 4); auto.
    destruct (Hrandom (9 * i + 4)%nat). split; lra. }
  split.
  { intros x Hin. apply in_flat_map in Hin. destruct Hin as (i & _ & Hin).
    cbn in Hin.
    destruct Hin as [<- | [<- | [<- | [<- | []]]]];
      apply (stored_between store 0 1); auto;
      match goal with
      | |- context [random ?k] => destruct (Hrandom k); split; lra
      end. }
  split; [repeat split |].
  intros frames random'.
  destruct (colourFrames_untouched setHSL random'
              (set_particleCount count s)
              (map store (initialColors setHSL random count)) frames)
    as (colors' & Hrun & _).
  - rewrite length_map. apply initialColors_length.
  - exists colors'. exact Hrun.
Qed.

Lemma resize_recreates_particles_witness :
  length (position_attr
            (snd (onWindowResize (fun x => x) plainHSL (fun _ => 0.5) 500
                    (initialState 1024)))) = (2000 * 3)%nat.
Proof.
  destruct (resize_recreates_particles (fun x => x) plainHSL (fun _ => 0.5)
              500 (initialState 1024))
    as (Hn & _ & Hlen & _).
  - split; [intros x y H; exact H | repeat split; reflexivity].
  - intros k. split; [discriminate | reflexivity].
  - rewrite Hlen. rewrite Hn; [reflexivity | cbn; lia].
Defined.

(** ** The frame loop *)





(** ** The other shapes of the vertex shader *)

Section ShaderShapes.

Import Shader.
Local Open Scope R_scope.

Lemma main_pos (pow : R -> R -> R) (position : vec3) (random : vec4)
  (time : R) (handPos : vec3) (gesture : Z) :
  pos (main pow position random time handPos gesture) =
  add3 (mix3 position (target (main pow position random time handPos gesture))
          (blend (main pow position random time handPos gesture) * 0.1))
       (mkVec3 (sin (time * 2 + r_x random * 10) * 2)
               (cos (time * 2 + r_x random * 10) * 2)
               (sin (time * 2 * 0.5 + r_x random * 10) * 2)).
Proof.
  unfold main.
  destruct (gesture =? 1)%Z; [| destruct (gesture =? 2)%Z;
    [| destruct (gesture =? 3)%Z; [| destruct (gesture =? 4)%Z]]];
    reflexivity.
Qed.

Lemma main_blend (pow : R -> R -> R) (position : vec3) (random : vec4)
  (time : R) (handPos : vec3) (gesture : Z) :
  0 <= blend (main pow position random time handPos gesture) <= 0.95.
Proof.
  unfold main.
  destruct (gesture =? 1)%Z; [| destruct (gesture =? 2)%Z;
    [| destruct (gesture =? 3)%Z; [| destruct (gesture =? 4)%Z]]];
    cbn [blend]; lra.
Qed.

Lemma mix_step_bound (p t a n : R) :
  0 <= a <= 0.095 -> -2 <= n <= 2 ->
  Rabs (mix p t a + n - p) <= 0.095 * Rabs (t - p) + 2.
Proof.
  intros [Ha0 Ha1] [Hn0 Hn1]. unfold mix.
  replace (p * (1 - a) + t * a + n - p) with ((t - p) * a + n) by ring.
  pose proof (Rabs_pos (t - p)) as Hpos.
  assert (Hta : Rabs ((t - p) * a) <= 0.095 * Rabs (t - p)).
  { rewrite Rabs_mult, (Rabs_right a) by lra. nra. }
  pose proof (Rabs_triang ((t - p) * a) n) as Htri.
  assert (Hn : Rabs n <= 2) by (apply Rabs_le; lra).
  lra.
Qed.

Lemma sin_times_2 (x : R) : -2 <= sin x * 2 <= 2.
Proof. pose proof (SIN_bound x). lra. Qed.

Lemma cos_times_2 (x : R) : -2 <= cos x * 2 <= 2.
Proof. pose proof (COS_bound x). lra. Qed.

(** X10.  For every gesture uniform, the position the vertex shader hands
    on differs from the particle's [position] attribute, along each axis, by
    at most 9.5 percent of the distance from the attribute to the target,
    plus 2: the shader never carries a particle to its target. *)
Theorem shader_moves_a_tenth :
  forall (pow : R -> R -> R) (position : vec3) (random : vec4)
         (time : R) (handPos : vec3) (gesture : Z),
    Rabs (v_x (pos (main pow position random time handPos gesture))
          - v_x position)
    <= 0.095
       * Rabs (v_x (target (main pow position random time handPos gesture))
               - v_x position) + 2 /\
    Rabs (v_y (pos (main pow position random time handPos gesture))
          - v_y position)
    <= 0.095
       * Rabs (v_y (target (main pow position random time handPos gesture))
               - v_y position) + 2 /\
    Rabs (v_z (pos (main pow position random time handPos gesture))
          - v_z position)
    <= 0.095
       * Rabs (v_z (target (main pow position random time handPos gesture))
               - v_z position) + 2.
Proof.
  intros pow position random time handPos gesture.
  rewrite main_pos. cbn [add3 mix3 v_x v_y v_z].
  pose proof (main_blend pow position random time handPos gesture) as Hb.
  repeat split; apply mix_step_bound;
    try lra; first [apply sin_times_2 | apply cos_times_2].
Qed.

(** X11.  Without a gesture (uniform 0, or any uniform outside 1..4) the
    target is within 50, 50 and 30 of the particle's own position and the
    blend is 0.02, so the particle is drawn within 2.1 of its attribute in x
    and y and within 2.06 in z. *)
Theorem ambient_drift_is_small :
  forall (pow : R -> R -> R) (position : vec3) (random : vec4)
         (time : R) (handPos : vec3) (gesture : Z),
    gesture <> 1%Z -> gesture <> 2%Z -> gesture <> 3%Z -> gesture <> 4%Z ->
    blend (main pow position random time handPos gesture) = 0.02 /\
    Rabs (v_x (target (main pow position random time handPos gesture))
          - v_x position) <= 50 /\
    Rabs (v_y (target (main pow position random time handPos gesture))
          - v_y position) <= 50 /\
    Rabs (v_z (target (main pow position random time handPos gesture))
          - v_z position) <= 30 /\
    Rabs (v_x (pos (main pow position random time handPos gesture))
          - v_x position) <= 2.1 /\
    Rabs (v_y (pos (main pow position random time handPos gesture))
          - v_y position) <= 2.1 /\
    Rabs (v_z (pos (main pow position random time handPos gesture))
          - v_z position) <= 2.06.
Proof.
  intros pow position random time handPos gesture H1 H2 H3 H4.
  apply Z.eqb_neq in H1, H2, H3, H4.
  rewrite main_pos. unfold main. rewrite H1, H2, H3, H4.
  cbn [blend target pos add3 mix3 v_x v_y v_z]. unfold mix.
  split; [reflexivity |].
  repeat match goal with
         | |- context [sin ?x] =>
             let s := fresh "s" in
             let Hs := fresh "Hs" in
             pose proof (SIN_bound x) as Hs; set (s := sin x) in *;
             clearbody s
         | |- context [cos ?x] =>
             let c := fresh "c" in
             let Hc := fresh "Hc" in
             pose proof (COS_bound x) as Hc; set (c := cos x) in *;
             clearbody c
         end.
  repeat split; apply Rabs_le; lra.
Qed.

Lemma ambient_drift_is_small_witness :
  Rabs (v_x (pos (main pow_total (mkVec3 100 0 0) (mkVec4 0 0 0 0) 0
                    (mkVec3 0 0 0) 0)) - v_x (mkVec3 100 0 0)) <= 2.1.
Proof.
  destruct (ambient_drift_is_small pow_total (mkVec3 100 0 0)
              (mkVec4 0 0 0 0) 0 (mkVec3 0 0 0) 0)
    as (_ & _ & _ & _ & Hx & _); try discriminate.
  exact Hx.
Defined.

Lemma unit_vector_norm (a b k : R) :
  (k * sin a * cos b) ^ 2 + (k * sin a * sin b) ^ 2 + (k * cos a) ^ 2 = k ^ 2.
Proof.
  pose proof (sin2_cos2 a) as E1. pose proof (sin2_cos2 b) as E2.
  unfold Rsqr in E1, E2.
  replace ((k * sin a * cos b) ^ 2 + (k * sin a * sin b) ^ 2
           + (k * cos a) ^ 2)
    with (k ^ 2 * (sin a * sin a * (sin b * sin b + cos b * cos b)
                   + cos a * cos a)) by ring.
  rewrite E2, Rmult_1_r, E1. ring.
Qed.

(** X12.  Under OPEN (uniform 2) a particle with [r3 >= 0.3] targets a
    point at distance [r0 * 50] from the hand point [H], inside the sphere
    of radius 50 for [r0] in [0, 1); a particle with [r3 < 0.3] wanders
    within [200 + r0 * 200], below 400, of [H] in x and in y, and within 100
    in z.  The blend is 0.9. *)
Theorem open_core_and_wanderers :
  forall (pow : R -> R -> R) (position : vec3) (random : vec4)
         (time : R) (handPos : vec3),
    let L := main pow position random time handPos 2 in
    let H := scale3 handPos 500 in
    let r0 := r_x random in
    let r3 := r_w random in
    (0.3 <= r3 ->
     (v_x (target L) - v_x H) ^ 2 + (v_y (target L) - v_y H) ^ 2
     + (v_z (target L) - v_z H) ^ 2 = (r0 * 50) ^ 2) /\
    (r3 < 0.3 -> 0 <= r0 ->
     Rabs (v_x (target L) - v_x H) <= 200 + r0 * 200 /\
     Rabs (v_y (target L) - v_y H) <= 200 + r0 * 200 /\
     Rabs (v_z (target L) - v_z H) <= 100) /\
    (0 <= r0 < 1 -> 0 <= r0 * 50 < 50 /\ 200 <= 200 + r0 * 200 < 400) /\
    blend L = 0.9.
Proof.
  intros pow position random time handPos L H r0 r3.
  split.
  { intros Hcore. unfold L, main. cbn [Z.eqb Pos.eqb target].
    fold r3. destruct (Rlt_dec 0.5 (step 0.3 r3)) as [_ | Hno].
    - cbn [v_x v_y v_z]. fold H r0.
      replace (v_x H + r0 * 50 * sin (r0 * 3.14159) * cos (r3 * 6.28318)
               - v_x H)
        with (r0 * 50 * sin (r0 * 3.14159) * cos (r3 * 6.28318)) by ring.
      replace (v_y H + r0 * 50 * sin (r0 * 3.14159) * sin (r3 * 6.28318)
               - v_y H)
        with (r0 * 50 * sin (r0 * 3.14159) * sin (r3 * 6.28318)) by ring.
      replace (v_z H + r0 * 50 * cos (r0 * 3.14159) - v_z H)
        with (r0 * 50 * cos (r0 * 3.14159)) by ring.
      apply unit_vector_norm.
    - exfalso. apply Hno. now apply step_ge. }
  split.
  { intros Hwander Hr0. unfold L, main. cbn [Z.eqb Pos.eqb target].
    fold r3. destruct (Rlt_dec 0.5 (step 0.3 r3)) as [Hyes | _].
    - apply step_ge in Hyes. lra.
    - cbn [v_x v_y v_z]. fold H r0.
      repeat match goal with
             | |- context [sin ?x] =>
                 let s := fresh "s" in
                 let Hs := fresh "Hs" in
                 pose proof (SIN_bound x) as Hs; set (s := sin x) in *;
                 clearbody s
             | |- context [cos ?x] =>
                 let c := fresh "c" in
                 let Hc := fresh "Hc" in
                 pose proof (COS_bound x) as Hc; set (c := cos x) in *;
                 clearbody c
             end.
      repeat split; apply Rabs_le; nra. }
  split; [intros [? ?]; lra |].
  unfold L, main. cbn [Z.eqb Pos.eqb blend]. reflexivity.
Qed.

Lemma open_core_and_wanderers_witness :
  0 <= r_x (mkVec4 (1 / 2) 0 0 0.1) * 50 < 50 /\
  200 <= 200 + r_x (mkVec4 (1 / 2) 0 0 0.1) * 200 < 400.
Proof.
  destruct (open_core_and_wanderers pow_total (mkVec3 0 0 0)
              (mkVec4 (1 / 2) 0 0 0.1) 0 (mkVec3 0 0 0))
    as (_ & _ & Hrange & _).
  apply Hrange. cbn. lra.
Defined.

Lemma floor_of_seven (r : R) :
  0 <= r < 1 ->
  exists k : Z, floor (r * 7) = IZR k /\ (0 <= k <= 6)%Z /\
                IZR k <= r * 7 < IZR k + 1.
Proof.
  intros [Hlo Hhi]. exists (Int_part (r * 7)).
  destruct (base_Int_part (r * 7)) as [Hle Hgt].
  split; [reflexivity |]. split; [| lra].
  split.
  - assert (H : (-1 < Int_part (r * 7))%Z) by (apply lt_IZR; lra). lia.
  - assert (H : (Int_part (r * 7) < 7)%Z) by (apply lt_IZR; lra). lia.
Qed.

(** X13.  Under PEACE (uniform 3), for [r0] and [r3] in [0, 1), a particle
    falls into one of seven slots [k = floor(r0 * 7)], 0 to 6, and targets
    [H.x + (k - 3) * 40 + (r3 - 0.5) * 30]: the slots are 40 apart, 30 wide,
    and the whole cluster stays within 135 of the hand point in x, 35 in y
    and 20 in z.  The blend is 0.92. *)
Theorem peace_seven_slots :
  forall (pow : R -> R -> R) (position : vec3) (random : vec4)
         (time : R) (handPos : vec3),
    0 <= r_x random < 1 -> 0 <= r_w random < 1 ->
    let L := main pow position random time handPos 3 in
    let H := scale3 handPos 500 in
    exists k : Z,
      (0 <= k <= 6)%Z /\
      IZR k <= r_x random * 7 < IZR k + 1 /\
      v_x (target L) = v_x H + (IZR k - 3) * 40 + (r_w random - 0.5) * 30 /\
      Rabs (v_x (target L) - (v_x H + (IZR k - 3) * 40)) <= 15 /\
      Rabs (v_x (target L) - v_x H) <= 135 /\
      Rabs (v_y (target L) - v_y H) <= 35 /\
      Rabs (v_z (target L) - v_z H) <= 20 /\
      blend L = 0.92.
Proof.
  intros pow position random time handPos Hr0 Hr3 L H.
  destruct (floor_of_seven (r_x random) Hr0) as (k & Hk & Hrange & Hfloor).
  exists k. split; [exact Hrange |]. split; [exact Hfloor |].
  unfold L, main. cbn [Z.eqb Pos.eqb target blend v_x v_y v_z].
  rewrite Hk. fold H.
  assert (Hk0 : 0 <= IZR k) by (apply IZR_le; lia).
  assert (Hk6 : IZR k <= 6) by (apply IZR_le; lia).
  pose proof (SIN_bound (r_x random * 20 + time * 2)) as Hs1.
  pose proof (SIN_bound (time * 2 * 2 + r_x random * 10)) as Hs2.
  set (s1 := sin (r_x random * 20 + time * 2)) in *.
  set (s2 := sin (time * 2 * 2 + r_x random * 10)) in *.
  split; [reflexivity |].
  repeat split; try (apply Rabs_le; lra).
Qed.

Lemma peace_seven_slots_witness :
  exists k : Z,
    (0 <= k <= 6)%Z /\
    IZR k <= r_x (mkVec4 (1 / 2) 0 0 (1 / 2)) * 7 < IZR k + 1.
Proof.
  destruct (peace_seven_slots pow_total (mkVec3 0 0 0)
              (mkVec4 (1 / 2) 0 0 (1 / 2)) 0 (mkVec3 0 0 0))
    as (k & Hk & Hslot & _).
  - cbn. lra.
  - cbn. lra.
  - exists k. split; [exact Hk | exact Hslot].
Defined.

(** X14.  Under METAL (uniform 4) the pulsing scale stays between 4.5 and
    5.5, so the heart stays within 115.5 of [H.y + 20] in y and within 30 of
    [H.z] in z; where [sin theta >= 0] the target lies on the side
    [target.x >= H.x], at most 88 away. *)
Theorem metal_heart_box :
  forall (pow : R -> R -> R) (position : vec3) (random : vec4)
         (time : R) (handPos : vec3),
    glsl_pow pow ->
    let L := main pow position random time handPos 4 in
    let H := scale3 handPos 500 in
    let theta := r_x random * 6.28318 in
    Rabs (v_y (target L) - (v_y H + 20)) <= 115.5 /\
    Rabs (v_z (target L) - v_z H) <= 30 /\
    (0 <= sin theta -> 0 <= v_x (target L) - v_x H <= 88).
Proof.
  intros pow position random time handPos Hpow L H theta.
  unfold L, main. cbn [Z.eqb Pos.eqb target v_x v_y v_z]. fold H theta.
  pose proof (SIN_bound (time * 2 * 8)) as Hbeat.
  set (beat := sin (time * 2 * 8)) in *.
  split.
  { pose proof (COS_bound theta) as H1.
    pose proof (COS_bound (2 * theta)) as H2.
    pose proof (COS_bound (3 * theta)) as H3.
    pose proof (COS_bound (4 * theta)) as H4.
    set (c1 := cos theta) in *. set (c2 := cos (2 * theta)) in *.
    set (c3 := cos (3 * theta)) in *. set (c4 := cos (4 * theta)) in *.
    apply Rabs_le. split; nra. }
  split.
  { pose proof (SIN_bound (theta * 3 + time * 2)) as Hz.
    apply Rabs_le. lra. }
  intros Hsin. rewrite (glsl_pow_cube pow (sin theta) Hpow Hsin).
  pose proof (SIN_bound theta) as Hs. set (st := sin theta) in *.
  assert (Hcube : 0 <= st ^ 3 <= 1).
  { split; [apply pow_le; exact Hsin |].
    replace 1 with (1 ^ 3) by ring. apply pow_incr. lra. }
  split; nra.
Qed.

Lemma metal_heart_box_witness :
  Rabs (v_y (target (main pow_total (mkVec3 0 0 0) (mkVec4 0 0 0 0) 0
                       (mkVec3 0 0 0) 4))
        - (v_y (scale3 (mkVec3 0 0 0) 500) + 20)) <= 115.5.
Proof.
  destruct (metal_heart_box pow_total (mkVec3 0 0 0) (mkVec4 0 0 0 0) 0
              (mkVec3 0 0 0) pow_total_glsl)
    as (Hy & _).
  exact Hy.
Defined.

End ShaderShapes.

(** ** Stars and point sprites *)

Section SkyAndSprites.

Import Shader.
Local Open Scope R_scope.

(** X15.  A star [createStarField] places from draws [u1] in [0, 1) and
    [u3] in [0, 1] lies at distance [800 + 1000 * u1] from the origin, in
    the shell between 800 and 1800, and its height is linear in the third
    draw, [z = r * (2 * u3 - 1)]: the stars are spread evenly over the
    sphere's height.  The twinkle of the star shader keeps a star's opacity
    between 0 and the opacity it was given. *)
Theorem stars_lie_in_a_shell :
  forall u1 u2 u3 : R,
    0 <= u1 < 1 -> 0 <= u3 <= 1 ->
    let star := Sky.starPosition u1 u2 u3 in
    let r := 800 + u1 * 1000 in
    v_x star ^ 2 + v_y star ^ 2 + v_z star ^ 2 = r ^ 2 /\
    800 ^ 2 <= v_x star ^ 2 + v_y star ^ 2 + v_z star ^ 2 < 1800 ^ 2 /\
    v_z star = r * (2 * u3 - 1) /\
    (forall opacity time x : R,
        0 <= opacity ->
        0 <= Sky.starOpacity opacity time x <= opacity).
Proof.
  intros u1 u2 u3 [Hlo Hhi] Hu3 star r.
  assert (Hnorm : v_x star ^ 2 + v_y star ^ 2 + v_z star ^ 2 = r ^ 2).
  { unfold star, Sky.starPosition. cbn [v_x v_y v_z]. fold r.
    apply unit_vector_norm. }
  split; [exact Hnorm |]. split.
  { rewrite Hnorm. unfold r. split; nra. }
  split.
  { unfold star, Sky.starPosition. cbn [v_z]. fold r.
    rewrite cos_acos by lra. reflexivity. }
  intros opacity time x Hop. unfold Sky.starOpacity.
  pose proof (SIN_bound (time * 2 + x * 0.01)) as Hs.
  split; nra.
Qed.

Lemma stars_lie_in_a_shell_witness :
  v_z (Sky.starPosition (1 / 2) 0 1) = (800 + 1 / 2 * 1000) * (2 * 1 - 1).
Proof.
  destruct (stars_lie_in_a_shell (1 / 2) 0 1) as (_ & _ & Hz & _);
    [lra | lra | exact Hz].
Defined.

Lemma sqrt_quarter : sqrt 0.25 = 0.5.
Proof.
  replace 0.25 with (0.5 * 0.5) by lra. apply sqrt_square. lra.
Qed.

Lemma Rpower_le_one (x y : R) : 0 < x <= 1 -> 0 <= y -> 0 < Rpower x y <= 1.
Proof.
  intros [Hx0 Hx1] Hy. unfold Rpower. split; [apply exp_pos |].
  assert (Hln : ln x <= 0).
  { destruct Hx1 as [Hlt | ->]; [| rewrite ln_1; lra].
    rewrite <- ln_1. left. now apply ln_increasing. }
  assert (Harg : y * ln x <= 0) by nra.
  destruct Harg as [Hneg | ->]; [| rewrite exp_0; lra].
  rewrite <- exp_0. left. now apply exp_increasing.
Qed.

(** X16.  The particle fragment shader draws each point as a disc: a
    fragment is discarded exactly when it lies more than 0.5 from the centre
    of the point; a fragment that is kept gets an alpha between 0 and
    [vAlpha], equal to [vAlpha] at the centre and 0 on the rim. *)
Theorem sprite_is_a_soft_disc :
  forall (pow : R -> R -> R) (cx cy vAlpha : R),
    glsl_pow pow -> 0 <= vAlpha ->
    let d2 := (cx - 0.5) * (cx - 0.5) + (cy - 0.5) * (cy - 0.5) in
    (Fragment.main pow cx cy vAlpha = None <-> 0.25 < d2) /\
    (d2 <= 0.25 ->
     exists alpha : R,
       Fragment.main pow cx cy vAlpha = Some alpha /\ 0 <= alpha <= vAlpha) /\
    Fragment.main pow 0.5 0.5 vAlpha = Some vAlpha /\
    (d2 = 0.25 -> Fragment.main pow cx cy vAlpha = Some 0).
Proof.
  intros pow cx cy vAlpha [Hpos Hzero] Hv d2.
  assert (Hd2 : 0 <= d2).
  { pose proof (Rle_0_sqr (cx - 0.5)) as H1.
    pose proof (Rle_0_sqr (cy - 0.5)) as H2.
    unfold Rsqr in H1, H2. unfold d2. lra. }
  assert (Hin : d2 <= 0.25 -> sqrt d2 <= 0.5).
  { intros H. rewrite <- sqrt_quarter. now apply sqrt_le_1_alt. }
  assert (Hout : 0.25 < d2 -> 0.5 < sqrt d2).
  { intros H. rewrite <- sqrt_quarter. apply sqrt_lt_1_alt. lra. }
  pose proof (sqrt_pos d2) as Hs0.
  unfold Fragment.main. fold d2.
  split.
  { destruct (Rlt_dec 0.5 (sqrt d2)) as [Hfar | Hnear].
    - split; [intros _ | reflexivity].
      destruct (Rlt_le_dec 0.25 d2) as [H | H]; [exact H |].
      apply Hin in H. lra.
    - split; [discriminate |]. intros H. apply Hout in H. contradiction. }
  split.
  { intros Hnear. destruct (Rlt_dec 0.5 (sqrt d2)) as [Hfar | _].
    - apply Hin in Hnear. lra.
    - eexists. split; [reflexivity |].
      apply Hin in Hnear.
      destruct (Rle_lt_or_eq_dec _ _ Hnear) as [Hlt | Heq].
      + rewrite Hpos by lra.
        destruct (Rpower_le_one (1 - sqrt d2 * 2) 1.5) as [Hp0 Hp1];
          [lra | lra |]. split; nra.
      + rewrite Heq. replace (1 - 0.5 * 2) with 0 by lra.
        rewrite Hzero by lra. lra. }
  split.
  { replace ((0.5 - 0.5) * (0.5 - 0.5) + (0.5 - 0.5) * (0.5 - 0.5)) with 0
      by ring.
    rewrite sqrt_0. destruct (Rlt_dec 0.5 0) as [H | _]; [lra |].
    replace (1 - 0 * 2) with 1 by ring. rewrite Hpos by lra.
    unfold Rpower. rewrite ln_1, Rmult_0_r, exp_0. f_equal. ring. }
  intros Hrim. rewrite Hrim, sqrt_quarter.
  destruct (Rlt_dec 0.5 0.5) as [H | _]; [lra |].
  replace (1 - 0.5 * 2) with 0 by lra. rewrite Hzero by lra.
  f_equal. ring.
Qed.

Lemma sprite_is_a_soft_disc_witness :
  Fragment.main pow_total 0.5 0.5 1 = Some 1.
Proof.
  destruct (sprite_is_a_soft_disc pow_total 0.5 0.5 1 pow_total_glsl)
    as (_ & _ & Hcentre & _).
  - lra.
  - exact Hcentre.
Defined.

End SkyAndSprites.

(** ** How many particles a colour pass visits *)

Lemma count_multiples (s n : nat) :
  (0 < s)%nat ->
  (n = 0%nat /\
   length (filter (fun j => Nat.eqb (Nat.modulo j s) 0) (seq 0 n)) = 0%nat) \/
  (exists k : nat,
      length (filter (fun j => Nat.eqb (Nat.modulo j s) 0) (seq 0 n)) = S k /\
      (k * s < n <= S k * s)%nat).
Proof.
  intros Hs. induction n as [| n IH].
  - left. split; reflexivity.
  - right. rewrite seq_S, filter_app, length_app. cbn [filter Nat.add].
    destruct (Nat.eqb_spec (Nat.modulo n s) 0) as [Hmod | Hmod];
      cbn [length].
    + destruct IH as [[-> ->] | (k & -> & Hk)].
      * exists 0%nat. split; [reflexivity | lia].
      * exists (S k). split; [lia |].
        pose proof (Nat.div_mod_eq n s) as E. rewrite Hmod in E.
        assert (Hq : (Nat.div n s = S k)%nat) by nia.
        rewrite Hq in E. nia.
    + destruct IH as [[-> _] | (k & -> & Hk)].
      * exfalso. apply Hmod. apply Nat.Div0.mod_0_l.
      * exists k. split; [lia |].
        assert (Hne : n <> (S k * s)%nat).
        { intros ->. apply Hmod. apply Nat.Div0.mod_mul. }
        lia.
Qed.

(** X17.  A colour pass over fewer than 300 particles visits them all; over
    300 particles or more it visits at least 300 and never more than 599,
    whatever the count: the stride bounds the work of a frame. *)
Theorem colour_pass_work_is_bounded :
  forall count : nat,
    ((count < 300)%nat -> touched count = count) /\
    ((300 <= count)%nat -> (300 <= touched count <= 599)%nat).
Proof.
  intros count. unfold touched, updateInterval.
  destruct (count_multiples (Nat.max 1 (Nat.div count 300)) count)
    as [[-> ->] | (k & -> & Hk)]; [lia | | ].
  - split; [reflexivity | lia].
  - pose proof (Nat.div_mod_eq count 300) as E.
    pose proof (Nat.mod_upper_bound count 300) as Hr.
    set (q := Nat.div count 300) in *. set (r := Nat.modulo count 300) in *.
    split.
    + intros Hsmall. assert (Hq : q = 0%nat) by nia.
      rewrite Hq in Hk. cbn in Hk. lia.
    + intros Hbig. assert (Hq : (1 <= q)%nat) by nia.
      replace (Nat.max 1 q) with q in Hk by lia.
      split; [nia |].
      destruct (Nat.eq_dec q 1) as [-> | Hq2]; [lia |].
      assert (Hk' : (k * 2 <= k * q)%nat) by nia. nia.
Qed.

Lemma colour_pass_work_is_bounded_witness :
  (300 <= touched 2000 <= 599)%nat.
Proof.
  destruct (colour_pass_work_is_bounded 2000) as [_ Hbig].
  apply Hbig. cbn. lia.
Defined.

(** ** Positions from frame to frame *)

Section Frames.

Import Shader.
Local Open Scope R_scope.

Lemma nth_error_combine_some {A B : Type} (l : list A) (l' : list B)
  (i : nat) (a : A) (b : B) :
  nth_error l i = Some a -> nth_error l' i = Some b ->
  nth_error (combine l l') i = Some (a, b).
Proof.
  revert l l'. induction i as [| i IH]; intros [| x l] [| y l'] Ha Hb;
    cbn in *; try discriminate.
  - congruence.
  - now apply IH.
Qed.

Lemma drawFrames_geometry (pow : R -> R -> R) (us : list Uniforms)
  (g : Geometry) :
  fst (drawFrames pow us g) = g.
Proof.
  induction us as [| u us IH]; cbn; [reflexivity |].
  destruct (drawFrames pow us g) as [g2 later]. exact IH.
Qed.

Lemma drawFrames_drawn (pow : R -> R -> R) (us : list Uniforms)
  (g : Geometry) :
  snd (drawFrames pow us g) = map (fun u => snd (drawParticles pow u g)) us.
Proof.
  induction us as [| u us IH]; cbn; [reflexivity |].
  destruct (drawFrames pow us g) as [g2 later]. cbn in *. now rewrite IH.
Qed.

(** C3, as amended.  Through any sequence of frames the position attribute
    stays what it was: no frame stores a position.  In every frame, for
    every particle and every gesture, the position drawn is
    [mix(position, target, blend * 0.1)] of the attribute as it was created
    and that frame's target, plus the offset
    [(sin(t + r0 * 10), cos(t + r0 * 10), sin(t * 0.5 + r0 * 10)) * 2], whose
    third component runs at half the speed of the first two.  The blend is
    0.02 for NONE, 0.95 for FIST, 0.9 for OPEN, 0.92 for PEACE and 0.94 for
    METAL. *)
Theorem frames_blend_the_created_position :
  forall (pow : R -> R -> R) (us : list Uniforms) (g : Geometry),
    fst (drawFrames pow us g) = g /\
    length (snd (drawFrames pow us g)) = length us /\
    (forall (k i : nat) (u : Uniforms) (p : vec3) (r : vec4),
        nth_error us k = Some u ->
        nth_error (g_position g) i = Some p ->
        nth_error (g_random g) i = Some r ->
        exists drawn : list vec3,
          nth_error (snd (drawFrames pow us g)) k = Some drawn /\
          nth_error drawn i =
          Some (add3
                  (mix3 p
                     (target (main pow p r (u_time u) (u_handPos u)
                                (u_gesture u)))
                     (blend (main pow p r (u_time u) (u_handPos u)
                               (u_gesture u)) * 0.1))
                  (mkVec3 (sin (u_time u * 2 + r_x r * 10) * 2)
                          (cos (u_time u * 2 + r_x r * 10) * 2)
                          (sin (u_time u * 2 * 0.5 + r_x r * 10) * 2)))) /\
    (forall (position : vec3) (random : vec4) (time : R) (handPos : vec3),
        blend (main pow position random time handPos
                 (gestureUniform GESTURES.NONE)) = 0.02 /\
        blend (main pow position random time handPos
                 (gestureUniform GESTURES.FIST)) = 0.95 /\
        blend (main pow position random time handPos
                 (gestureUniform GESTURES.OPEN)) = 0.9 /\
        blend (main pow position random time handPos
                 (gestureUniform GESTURES.PEACE)) = 0.92 /\
        blend (main pow position random time handPos
                 (gestureUniform GESTURES.METAL)) = 0.94).
Proof.
  intros pow us g.
  split; [apply drawFrames_geometry |].
  split; [rewrite drawFrames_drawn; apply length_map |].
  split; [| intros; repeat split].
  intros k i u p r Hu Hp Hr. rewrite drawFrames_drawn.
  exists (snd (drawParticles pow u g)). split.
  - rewrite nth_error_map, Hu. reflexivity.
  - unfold drawParticles. cbn [snd].
    rewrite nth_error_map, (nth_error_combine_some _ _ i p r Hp Hr).
    cbn [option_map fst snd]. rewrite main_pos. reflexivity.
Qed.

Lemma frames_blend_the_created_position_witness :
  exists drawn : list vec3,
    nth_error (snd (drawFrames pow_total [fistFrame; fistFrame] loneParticle))
      1 = Some drawn /\
    nth_error drawn 0 =
    Some (add3
            (mix3 (mkVec3 0 0 0)
               (target (main pow_total (mkVec3 0 0 0) (mkVec4 0 0 0 (1 / 2))
                          (u_time fistFrame) (u_handPos fistFrame)
                          (u_gesture fistFrame)))
               (blend (main pow_total (mkVec3 0 0 0) (mkVec4 0 0 0 (1 / 2))
                         (u_time fistFrame) (u_handPos fistFrame)
                         (u_gesture fistFrame)) * 0.1))
            (mkVec3 (sin (u_time fistFrame * 2
                          + r_x (mkVec4 0 0 0 (1 / 2)) * 10) * 2)
                    (cos (u_time fistFrame * 2
                          + r_x (mkVec4 0 0 0 (1 / 2)) * 10) * 2)
                    (sin (u_time fistFrame * 2 * 0.5
                          + r_x (mkVec4 0 0 0 (1 / 2)) * 10) * 2))).
Proof.
  destruct (frames_blend_the_created_position pow_total
              [fistFrame; fistFrame] loneParticle)
    as (_ & _ & Hdrawn & _).
  apply (Hdrawn 1%nat 0%nat fistFrame (mkVec3 0 0 0) (mkVec4 0 0 0 (1 / 2)));
    reflexivity.
Defined.

(** C3 as the specification words it fails, on both counts.  After a frame
    that shows a fist, the stored position of the particle at the origin
    with [r0 = 0] and [r3 = 0.5] is still the origin, where the blend towards
    its target (120, 0, 0) would have put x at 11.4; and the offset along z
    at time 0.5 is [2 sin 0.5], not the [2 sin 1] of the first component's
    argument. *)
Lemma stored_position_counterexample :
  map v_x (g_position (fst (drawFrames pow_total [fistFrame] loneParticle)))
  <> [ v_x (mix3 (mkVec3 0 0 0)
              (target (main pow_total (mkVec3 0 0 0) (mkVec4 0 0 0 (1 / 2))
                         0 (mkVec3 0 0 0) 1))
              (blend (main pow_total (mkVec3 0 0 0) (mkVec4 0 0 0 (1 / 2))
                        0 (mkVec3 0 0 0) 1) * 0.1))
       + sin (0 * 2 + 0 * 10) * 2 ] /\
  v_z (pos (main pow_total (mkVec3 0 0 0) (mkVec4 0 0 0 0) (1 / 2)
              (mkVec3 0 0 0) 0)) <>
  v_z (mix3 (mkVec3 0 0 0)
         (target (main pow_total (mkVec3 0 0 0) (mkVec4 0 0 0 0) (1 / 2)
                    (mkVec3 0 0 0) 0))
         (blend (main pow_total (mkVec3 0 0 0) (mkVec4 0 0 0 0) (1 / 2)
                   (mkVec3 0 0 0) 0) * 0.1))
  + sin (1 / 2 * 2 + 0 * 10) * 2.
Proof.
  split; [| exact turbulence_z_runs_at_half_speed].
  rewrite drawFrames_geometry. cbn [loneParticle g_position map v_x].
  unfold main. cbn [Z.eqb Pos.eqb target blend mix3 v_x r_x r_w scale3].
  unfold step. destruct (Rlt_dec (1 / 2) 0.3) as [Hlt | _]; [lra |].
  destruct (Rlt_dec 0.5 1) as [_ | Hno]; [| lra].
  cbn [v_x]. unfold mix.
  replace (0 * 6.28318 + 0 * 2 * 0.3) with 0 by lra.
  replace (0 * 2 + 0 * 10) with 0 by lra.
  rewrite cos_0, sin_0.
  intros Heq. injection Heq as Heq. lra.
Qed.

End Frames.
